(** * Connection flights: shortest-hop routing and itinerary assembly

    A shallow embedding of [path_finder.py].  [routes] and [flights] are
    explicit inputs of every function that reads them in the source (there
    they are module-level globals).  In the model of the generator the
    values drawn from [random] are inputs as well; [set_price], which
    multiplies by a random floating-point factor, is not modelled. *)

From Stdlib Require Import ZArith Lia Ascii String List Sorted.
From stdpp Require Import base option list strings gmap.

Local Open Scope Z_scope.

(** ** Exceptions

    Python exceptions that the modelled code can raise, and the result of a
    computation that may raise.  [OutOfFuel] is not a Python exception: it
    is returned by the two [while] loops of the route search when their
    iteration budget is exhausted; [search_cases] shows that both loops end
    within the budget. *)

Inductive exn : Type :=
| IndexError
| KeyError
| TypeError
| OutOfFuel.

Inductive result (A : Type) : Type :=
| Ok (a : A)
| Err (e : exn).
Arguments Ok {A} a.
Arguments Err {A} e.

#[global] Instance result_bind : MBind result := fun A B k r =>
  match r with
  | Ok a => k a
  | Err e => Err e
  end.

(** ** datetime.timedelta

    Every [timedelta] of the program is built from whole days, hours and
    minutes, so a value is its total number of seconds.  [.days] and
    [.seconds] are the normalised fields of Python: [0 <= .seconds < 86400]
    and [.days] may be negative. *)

Abbreviation city := string (only parsing).
Abbreviation timedelta := Z (only parsing).

Definition td (days hours minutes : Z) : timedelta :=
  days * 86400 + hours * 3600 + minutes * 60.

Definition td_days (t : timedelta) : Z := t / 86400.
Definition td_seconds (t : timedelta) : Z := t mod 86400.

(** ** The timetable: the rows of the [flights] data frame *)

Record flight := {
  city_from : city;
  city_to : city;
  week_day : Z;
  time : timedelta;
  price : Z
}.

(** [routes]: a dict of dicts in insertion order. *)
Definition routes_t := list (city * list (city * timedelta)).

Fixpoint assoc {B} (k : city) (l : list (city * B)) : option B :=
  match l with
  | [] => None
  | (k', v) :: l' => if String.eqb k k' then Some v else assoc k l'
  end.

(** [routes[a]] on a [defaultdict(dict)]: a missing key reads as the empty
    dict. *)
Definition neighbours (routes : routes_t) (a : city) : list (city * timedelta) :=
  default [] (assoc a routes).

(** [routes[a][b]] *)
Definition duration (routes : routes_t) (a b : city) : result timedelta :=
  match assoc b (neighbours routes a) with
  | Some d => Ok d
  | None => Err KeyError
  end.

Definition week_days (d : Z) : result string :=
  match d with
  | 1 => Ok "Понедельник"%string
  | 2 => Ok "Вторник"%string
  | 3 => Ok "Среда"%string
  | 4 => Ok "Четверг"%string
  | 5 => Ok "Пятница"%string
  | 6 => Ok "Суббота"%string
  | 7 => Ok "Воскресенье"%string
  | _ => Err KeyError
  end.

(** ** Time helpers *)

Definition timedelta_to_day_hour_minutes (time_pos : timedelta) : Z * Z * Z :=
  let week_day := td_days time_pos in
  let week_day := if 7 <? week_day then week_day mod 7 else week_day in
  let hours := td_seconds time_pos / 3600 in
  let hours := if 24 <? hours then hours mod 24 else hours in
  let minutes := td_seconds time_pos / 60 mod 60 in
  (week_day, hours, minutes).

(** ['{:02}'.format(n)] for [0 <= n < 100], the only values it is applied
    to (an hour or a minute of a [.seconds] field). *)
Definition digit (n : Z) : ascii := ascii_of_nat (48 + Z.to_nat n).
Definition fmt02 (n : Z) : string :=
  String (digit (n / 10)) (String (digit (n mod 10)) EmptyString).

Definition timedelta_to_formatted_string (t : timedelta) : string :=
  let time_seconds := td_seconds t in
  let hours := time_seconds / 3600 in
  let minutes := time_seconds / 60 mod 60 in
  (fmt02 hours ++ ":" ++ fmt02 minutes)%string.

(** ** find_nearest_flight *)

Definition on_pair (origin_city destination_city : city) (r : flight) : bool :=
  String.eqb (city_from r) origin_city && String.eqb (city_to r) destination_city.

(** [flights[(flights['city_from'] == a) & (flights['city_to'] == b)]] *)
Definition pair_options (flights : list flight) (a b : city) : list flight :=
  List.filter (on_pair a b) flights.

(** [options[(options['week_day'] >= day) & (options['time'] >= timedelta(hours, minutes))]] *)
Definition in_same_week (day hours minutes : Z) (r : flight) : bool :=
  (day <=? week_day r) && (td 0 hours minutes <=? time r).

Definition find_nearest_flight (routes : routes_t) (flights : list flight)
    (origin_city destination_city : city) (time_pos : timedelta) (total_price : Z)
  : result (string * timedelta * Z) :=
  let time_pos := time_pos + td 0 3 0 in
  let '(day, hours, minutes) := timedelta_to_day_hour_minutes time_pos in
  let options := pair_options flights origin_city destination_city in
  let same_week := List.filter (in_same_week day hours minutes) options in
  let options := if (0 <? length same_week)%nat then same_week else options in
  match options with
  | [] => Err IndexError
  | r :: _ =>
      let flight_day := week_day r in
      let flight_time := time r in
      let display_time := timedelta_to_formatted_string flight_time in
      day_name ← week_days flight_day;
      let connection_flight :=
        (" " ++ origin_city ++ " " ++ day_name ++ " " ++ display_time)%string in
      let total_price := total_price + price r in
      let gap := td flight_day 0 0 + flight_time - td day hours minutes in
      let gap := if (length same_week =? 0)%nat then gap + td 7 0 0 else gap in
      let time_pos := time_pos + gap in
      flight_duration ← duration routes origin_city destination_city;
      let time_pos := time_pos + flight_duration in
      Ok (connection_flight, time_pos, total_price)
  end.

(** ** find_flights

    The source renders each option as the string
    [this_option_flights + ' -> ' + f'{this_option_price} руб. ({travel_time})'];
    an [itinerary] keeps the three rendered values. *)

Record itinerary := {
  option_flights : string;
  option_price : Z;
  travel_time : timedelta
}.

(** The [while pos < len(cities)] loop: [rest] is [cities[pos:]]. *)
Fixpoint connect (routes : routes_t) (flights : list flight)
    (city_to : city) (rest : list city)
    (this_option_flights : string) (time_since_start : timedelta)
    (this_option_price : Z) : result (string * timedelta * Z) :=
  match rest with
  | [] => Ok (this_option_flights, time_since_start, this_option_price)
  | next :: rest' =>
      let city_from := city_to in
      let city_to := next in
      '(connection_flight, time_since_start, this_option_price) ←
        find_nearest_flight routes flights city_from city_to
          time_since_start this_option_price;
      connect routes flights city_to rest'
        (this_option_flights ++ connection_flight)%string
        time_since_start this_option_price
  end.

(** The body of the [for index in range(len(start_options))] loop. *)
Definition start_option (routes : routes_t) (flights : list flight)
    (city_from city_to : city) (rest : list city) (r : flight) : result itinerary :=
  let this_option_price := price r in
  let day := week_day r in
  let time_seconds := td_seconds (time r) in
  let hours := time_seconds / 3600 in
  let minutes := time_seconds / 60 mod 60 in
  display_day ← week_days day;
  let display_time := (fmt02 hours ++ ":" ++ fmt02 minutes)%string in
  let this_option_flights :=
    (city_from ++ " " ++ display_day ++ " " ++ display_time)%string in
  let start_time := td day hours minutes in
  flight_duration ← duration routes city_from city_to;
  let time_since_start := start_time + flight_duration in
  '(this_option_flights, time_since_start, this_option_price) ←
    connect routes flights city_to rest
      this_option_flights time_since_start this_option_price;
  let travel_time := time_since_start - start_time in
  Ok {| option_flights := this_option_flights;
        option_price := this_option_price;
        travel_time := travel_time |}.

Fixpoint for_each {A B} (f : A -> result B) (l : list A) : result (list B) :=
  match l with
  | [] => Ok []
  | a :: l' => b ← f a; bs ← for_each f l'; Ok (b :: bs)
  end.

Definition find_flights (routes : routes_t) (flights : list flight)
    (cities : list city) : result (list itinerary) :=
  match cities with
  | city_from :: city_to :: rest =>
      let start_options := pair_options flights city_from city_to in
      for_each (start_option routes flights city_from city_to rest) start_options
  | _ => Err IndexError
  end.

(** ** The route search (module level)

    [n_routes] and [parents] are dicts over the keys of [routes]; a lookup
    of a missing key is the [None] of [!!] (a [KeyError]), an unset entry is
    [Some None]. *)

Record bfs_state := {
  n_routes : gmap city (option nat);
  parents : gmap city (option city);
  queue : list city;
  path_exists : bool
}.

Definition getitem {V} (m : gmap city V) (k : city) : result V :=
  match m !! k with
  | Some v => Ok v
  | None => Err KeyError
  end.

(** The [for neigh_v in routes[cur_v]] loop with its [break]. *)
Fixpoint visit (end_vertex cur_v : city) (neighs : list city) (st : bfs_state)
  : result bfs_state :=
  match neighs with
  | [] => Ok st
  | neigh_v :: rest =>
      seen ← getitem (n_routes st) neigh_v;
      match seen with
      | Some _ => visit end_vertex cur_v rest st
      | None =>
          hops ← getitem (n_routes st) cur_v;
          match hops with
          | None => Err TypeError
          | Some d =>
              let n_routes := <[neigh_v := Some (S d)]> (n_routes st) in
              let parents := <[neigh_v := Some cur_v]> (parents st) in
              let queue := queue st ++ [neigh_v] in
              if String.eqb neigh_v end_vertex
              then Ok {| n_routes := n_routes; parents := parents;
                         queue := queue; path_exists := true |}
              else visit end_vertex cur_v rest
                     {| n_routes := n_routes; parents := parents;
                        queue := queue; path_exists := path_exists st |}
          end
      end
  end.

(** The [while queue and not path_exists] loop. *)
Fixpoint bfs (fuel : nat) (routes : routes_t) (end_vertex : city) (st : bfs_state)
  : result bfs_state :=
  match fuel with
  | O => Err OutOfFuel
  | S fuel =>
      match queue st with
      | [] => Ok st
      | cur_v :: q =>
          if path_exists st then Ok st
          else
            st ← visit end_vertex cur_v (map fst (neighbours routes cur_v))
                   {| n_routes := n_routes st; parents := parents st;
                      queue := q; path_exists := false |};
            bfs fuel routes end_vertex st
      end
  end.

(** The [while not parent is None] loop; [path] grows at its end. *)
Fixpoint walk_back (fuel : nat) (routes : routes_t) (parents : gmap city (option city))
    (parent : option city) (next_city : city)
    (path : list city) (total_time_on_board : timedelta)
  : result (list city * timedelta) :=
  match fuel with
  | O => Err OutOfFuel
  | S fuel =>
      match parent with
      | None => Ok (path, total_time_on_board)
      | Some p =>
          let path := path ++ [p] in
          d ← duration routes p next_city;
          let total_time_on_board := total_time_on_board + d in
          let next_city := p in
          parent ← getitem parents p;
          walk_back fuel routes parents parent next_city path total_time_on_board
      end
  end.

Definition has_key (routes : routes_t) (c : city) : bool :=
  match assoc c routes with Some _ => true | None => false end.

Definition unset {V} (routes : routes_t) : gmap city (option V) :=
  list_to_map (map (fun kv => (fst kv, None)) routes).

Definition initial (routes : routes_t) (start_vertex : city) : bfs_state :=
  {| n_routes := <[start_vertex := Some 0%nat]> (unset routes);
     parents := unset routes;
     queue := [start_vertex];
     path_exists := false |}.

(** Both loops stop within one more iteration than [routes] has keys. *)
Definition budget (routes : routes_t) : nat := S (length routes).

(** The search and the reconstruction: [None] when the message "the route
    cannot be built" is printed, otherwise the path and the time on board. *)
Definition search (routes : routes_t) (start_vertex end_vertex : city)
  : result (option (list city * timedelta)) :=
  if negb (has_key routes start_vertex) || negb (has_key routes end_vertex)
  then Ok None
  else
    st ← bfs (budget routes) routes end_vertex (initial routes start_vertex);
    if negb (path_exists st) then Ok None
    else
      parent ← getitem (parents st) end_vertex;
      '(path, total_time_on_board) ←
        walk_back (budget routes) routes (parents st) parent end_vertex [end_vertex] 0;
      Ok (Some (rev path, total_time_on_board)).

Definition find_path (routes : routes_t) (start_vertex end_vertex : city)
  : result (option (list city)) :=
  match search routes start_vertex end_vertex with
  | Ok (Some (path, _)) => Ok (Some path)
  | Ok None => Ok None
  | Err e => Err e
  end.

(** What the program prints for a query. *)
Inductive route_result : Type :=
| Unreachable
| Route (path : list city) (total_time_on_board : string)
        (available_flights : list itinerary).

Definition query (routes : routes_t) (flights : list flight)
    (start_vertex end_vertex : city) : result route_result :=
  match search routes start_vertex end_vertex with
  | Err e => Err e
  | Ok None => Ok Unreachable
  | Ok (Some (path, total_time_on_board)) =>
      let total_time_on_board := timedelta_to_formatted_string total_time_on_board in
      available_flights ← find_flights routes flights path;
      Ok (Route path total_time_on_board available_flights)
  end.

(** * Properties of the timetable search *)

(** ** Timetables as the data model describes them *)

(** A row departs on a weekday 1..7 at a whole minute of the day. *)
Definition wf_row (r : flight) : Prop :=
  1 <= week_day r <= 7 /\ 0 <= time r < 86400 /\ time r mod 60 = 0.

Definition wf_timetable (flights : list flight) : Prop :=
  Forall wf_row flights.

(** [(d1, t1)] is not later than [(d2, t2)] in the week. *)
Definition stamp_le (d1 t1 d2 t2 : Z) : Prop :=
  d1 < d2 \/ (d1 = d2 /\ t1 <= t2).

(** The rows of [options] that are not earlier in the week than
    [(day, hours:minutes)]. *)
Definition at_or_after (day hours minutes : Z) (r : flight) : bool :=
  (day <? week_day r) || ((day =? week_day r) && (td 0 hours minutes <=? time r)).

(** The order of
    [flights.sort_values(by=['city_from', 'city_to', 'week_day', 'time'])]. *)
Definition row_leb (r1 r2 : flight) : bool :=
  match String.compare (city_from r1) (city_from r2) with
  | Lt => true
  | Gt => false
  | Eq =>
      match String.compare (city_to r1) (city_to r2) with
      | Lt => true
      | Gt => false
      | Eq => (week_day r1 <? week_day r2)
              || ((week_day r1 =? week_day r2) && (time r1 <=? time r2))
      end
  end.

Definition sorted_timetable (flights : list flight) : Prop :=
  StronglySorted (fun r1 r2 => row_leb r1 r2 = true) flights.

(** The 7-day cycle of an absolute instant: days 1..7 are cycle 0. *)
Definition cycle (t : timedelta) : Z := (td_days t - 1) / 7.

(** Two cities that follow each other in a list of cities. *)
Definition consecutive (a b : city) (cities : list city) : Prop :=
  exists l1 l2, cities = l1 ++ a :: b :: l2.

(** The sum of [routes[a][b]] over the legs of a path. *)
Fixpoint airborne_time (routes : routes_t) (cities : list city) : result timedelta :=
  match cities with
  | a :: (b :: _) as tl =>
      d ← duration routes a b;
      s ← airborne_time routes tl;
      Ok (d + s)
  | _ => Ok 0
  end.

(** ** Routes in the network *)

(** [v] is a key of [routes[u]]. *)
Definition edge (routes : routes_t) (u v : city) : Prop :=
  In v (map fst (neighbours routes u)).

(** [route routes s v p]: [p] lists the cities of a walk from [s] to [v]
    along edges, both ends included; it has [length p - 1] hops. *)
Inductive route (routes : routes_t) (s : city) : city -> list city -> Prop :=
| route_start : route routes s s [s]
| route_step u v p :
    route routes s u p -> edge routes u v -> route routes s v (p ++ [v]).

Definition reachable (routes : routes_t) (s e : city) : Prop :=
  exists p, route routes s e p.

(** Every neighbour is itself a key, as in a network stored in both
    directions. *)
Definition closed_graph (routes : routes_t) : Prop :=
  forall u v, edge routes u v -> has_key routes v = true.

(** ** Invariants of the search *)

Definition has_level (st : bfs_state) (d : nat) (v : city) : Prop :=
  n_routes st !! v = Some (Some d).

Definition discovered (st : bfs_state) (v : city) : Prop :=
  exists d, has_level st d v.

(** [d] is the least number of hops from [s] to [v]. *)
Definition shortest (routes : routes_t) (s : city) (d : nat) (v : city) : Prop :=
  (exists p, route routes s v p /\ length p = S d) /\
  (forall p, route routes s v p -> (S d <= length p)%nat).

(** What holds of the two dicts at every point of the search. *)
Record core (routes : routes_t) (s e : city) (st : bfs_state) : Prop := {
  core_keys_n : forall v, has_key routes v = true <-> is_Some (n_routes st !! v);
  core_keys_p : forall v, has_key routes v = true <-> is_Some (parents st !! v);
  core_start : has_level st 0 s;
  core_level : forall v d, has_level st d v -> shortest routes s d v;
  core_parent : forall v d, has_level st d v ->
    match d with
    | O => parents st !! v = Some None
    | S d' => exists u, parents st !! v = Some (Some u) /\
                        edge routes u v /\ has_level st d' u
    end;
  core_found : if path_exists st
               then exists d, has_level st (S d) e
               else e <> s -> ~ discovered st e
}.

(** The queue holds cities of two successive levels, in order. *)
Definition two_levels (st : bfs_state) (k : nat) : Prop :=
  exists q1 q2, queue st = q1 ++ q2 /\
                Forall (has_level st k) q1 /\ Forall (has_level st (S k)) q2.

(** Between two iterations of the [while] loop. *)
Record frontier (routes : routes_t) (st : bfs_state) : Prop := {
  frontier_queue : exists k, two_levels st k;
  frontier_closed : forall u, discovered st u -> ~ In u (queue st) ->
                    forall w, edge routes u w -> discovered st w
}.

(** Inside the [for] loop over the neighbours of [cur], at level [k], with
    [neighs] still to visit. *)
Record visiting (routes : routes_t) (s : city) (cur : city) (k : nat)
    (neighs : list city) (st : bfs_state) : Prop := {
  visiting_cur : has_level st k cur;
  visiting_queue : two_levels st k;
  visiting_closed : forall u, discovered st u -> ~ In u (queue st) -> u <> cur ->
                    forall w, edge routes u w -> discovered st w;
  visiting_rest : forall w, edge routes cur w -> In w neighs \/ discovered st w;
  visiting_todo : forall w, In w neighs -> edge routes cur w;
  visiting_near : forall v p, route routes s v p -> (length p <= S k)%nat ->
                  discovered st v
}.

(** The cities not yet discovered fit in a list [U]; [n] bounds the
    iterations left, and the levels stay below the number of keys. *)
Definition measure (routes : routes_t) (st : bfs_state) (n : nat) : Prop :=
  exists U : list city,
    (forall v, n_routes st !! v = Some None -> In v U) /\
    (length U + length (queue st) <= n)%nat /\
    (forall v d, has_level st d v -> (d + length U < length routes)%nat).

(** ** Timetables and networks used in the examples *)

Definition mk_flight (a b : city) (day hours minutes cost : Z) : flight :=
  {| city_from := a; city_to := b; week_day := day;
     time := td 0 hours minutes; price := cost |}.

(** Edges A-B (2h) and B-C (3h), each stored in both directions. *)
Definition abc_routes : routes_t :=
  [ ("A", [("B", td 0 2 0)]);
    ("B", [("A", td 0 2 0); ("C", td 0 3 0)]);
    ("C", [("B", td 0 3 0)]) ]%string.

Definition abc_flights : list flight :=
  [ mk_flight "A" "B" 1 8 0 100;
    mk_flight "B" "C" 1 12 0 150;
    mk_flight "B" "C" 1 20 0 140 ]%string.

(** B->C flies on Monday 08:00 and on Tuesday 09:00. *)
Definition two_day_flights : list flight :=
  [ mk_flight "A" "B" 1 4 30 100;
    mk_flight "B" "C" 1 8 0 150;
    mk_flight "B" "C" 2 9 0 140 ]%string.

(** A chain of four cities whose flights all leave on Sunday. *)
Definition abcd_routes : routes_t :=
  [ ("A", [("B", td 0 2 0)]);
    ("B", [("A", td 0 2 0); ("C", td 0 3 0)]);
    ("C", [("B", td 0 3 0); ("D", td 0 1 0)]);
    ("D", [("C", td 0 1 0)]) ]%string.

Definition sunday_flights : list flight :=
  [ mk_flight "A" "B" 7 20 0 100;
    mk_flight "B" "C" 7 10 0 150;
    mk_flight "C" "D" 7 18 0 120 ]%string.

(** As [sunday_flights], with the flight from C to D on Sunday morning. *)
Definition sunday_morning_flights : list flight :=
  [ mk_flight "A" "B" 7 20 0 100;
    mk_flight "B" "C" 7 10 0 150;
    mk_flight "C" "D" 7 10 0 120 ]%string.

(** Nothing flies from B to C. *)
Definition no_bc_flights : list flight :=
  [ mk_flight "A" "B" 1 8 0 100 ]%string.

(** ** Legs of a path *)

(** The directed pairs of consecutive cities of a path. *)
Fixpoint legs (cities : list city) : list (city * city) :=
  match cities with
  | a :: (b :: _) as tl => (a, b) :: legs tl
  | _ => []
  end.

(** [r] is a row of the timetable for the leg [leg]. *)
Definition flies (flights : list flight) (leg : city * city) (r : flight) : Prop :=
  In r flights /\ city_from r = fst leg /\ city_to r = snd leg.

Definition total_price_of (rows : list flight) : Z :=
  fold_right Z.add 0 (map price rows).

(** Every edge is stored in both directions. *)
Definition symmetric_graph (routes : routes_t) : Prop :=
  forall u v, edge routes u v -> edge routes v u.

(** A timetable with a flight in each direction of each edge of
    [abc_routes]. *)
Definition abc_round_flights : list flight :=
  [ mk_flight "A" "B" 1 8 0 100;
    mk_flight "B" "A" 2 14 30 110;
    mk_flight "B" "C" 1 20 0 140;
    mk_flight "C" "B" 3 6 15 150 ]%string.

(** A network stored in one direction only: B is a neighbour, not a key. *)
Definition one_way_routes : routes_t :=
  [ ("A", [("B", td 0 2 0)]) ]%string.

(** ** The generator of the network and of the timetable

    The values drawn from [random] are inputs of the model: a
    [departure_draw] holds what one turn of the loop of [make_schedule]
    draws, a [route_draw] what one turn of the loop of [add_route] draws.
    The two prices are the results of [set_price], which multiplies by a
    random floating-point factor and is not modelled. *)

Record departure_draw := {
  direct_week_day : Z;
  direct_hours : Z;
  direct_minutes : Z;
  direct_price : Z;
  backward_price : Z
}.

Record route_draw := {
  origin_city : city;
  destination_city : city;
  travel_time_minutes : Z;
  departures : list departure_draw
}.

(** [d[k] = v] on a dict: a key already present keeps its place. *)
Fixpoint set_assoc {B} (k : city) (v : B) (l : list (city * B)) : list (city * B) :=
  match l with
  | [] => [(k, v)]
  | (k', v') :: l' =>
      if String.eqb k k' then (k', v) :: l' else (k', v') :: set_assoc k v l'
  end.

(** [routes[a][b] = t] on the [defaultdict(dict)]. *)
Definition set_route (routes : routes_t) (a b : city) (t : timedelta) : routes_t :=
  set_assoc a (set_assoc b t (neighbours routes a)) routes.

(** The weekday and the time of the return flight in [make_schedule]. *)
Definition backward_departure (direct_week_day : Z) (direct_time travel_time : timedelta)
  : Z * timedelta :=
  let time_since_week_start := td direct_week_day 0 0 + direct_time in
  let time_since_week_start := time_since_week_start + (travel_time + td 0 5 0) in
  let backward_week_day := td_days time_since_week_start in
  let backward_week_day :=
    if 7 <? backward_week_day then backward_week_day mod 7 else backward_week_day in
  let backward_hours := td_seconds time_since_week_start / 3600 in
  let backward_hours :=
    if 24 <? backward_hours then backward_hours mod 24 else backward_hours in
  let backward_minutes := td_seconds time_since_week_start / 60 mod 60 in
  (backward_week_day, td 0 backward_hours backward_minutes).

(** The loop [for _ in range(flights_per_week)]: one turn per element of
    [draws].  The two lookups in [routes] are those made for [set_price]. *)
Fixpoint make_schedule (routes : routes_t) (origin_city destination_city : city)
    (travel_time : timedelta) (draws : list departure_draw) (schedule : list flight)
  : result (list flight) :=
  match draws with
  | [] => Ok schedule
  | dr :: draws =>
      _ ← duration routes origin_city destination_city;
      let direct_time := td 0 (direct_hours dr) (direct_minutes dr) in
      let schedule :=
        schedule ++ [ {| city_from := origin_city; city_to := destination_city;
                         week_day := direct_week_day dr; time := direct_time;
                         price := direct_price dr |} ] in
      let '(backward_week_day, backward_time) :=
        backward_departure (direct_week_day dr) direct_time travel_time in
      _ ← duration routes destination_city origin_city;
      let schedule :=
        schedule ++ [ {| city_from := destination_city; city_to := origin_city;
                         week_day := backward_week_day; time := backward_time;
                         price := backward_price dr |} ] in
      make_schedule routes origin_city destination_city travel_time draws schedule
  end.

(** The loop [while duplicate_routes] of [add_route]: one turn per element
    of [draws], [OutOfFuel] when they run out; the draws that are left are
    returned with the result. *)
Fixpoint add_route (draws : list route_draw) (routes : routes_t)
    (existing_routes : gset (city * city)) (flights : list flight)
  : result (routes_t * gset (city * city) * list flight * list route_draw) :=
  match draws with
  | [] => Err OutOfFuel
  | dr :: draws =>
      let origin_city := origin_city dr in
      let destination_city := destination_city dr in
      if decide ((origin_city, destination_city) ∈ existing_routes)
      then add_route draws routes existing_routes flights
      else
        let existing_routes :=
          {[ (destination_city, origin_city) ]}
            ∪ ({[ (origin_city, destination_city) ]} ∪ existing_routes) in
        let hours := travel_time_minutes dr / 60 in
        let minutes := travel_time_minutes dr mod 60 in
        let travel_time := td 0 hours minutes in
        let routes := set_route routes origin_city destination_city travel_time in
        let routes := set_route routes destination_city origin_city travel_time in
        flights ← make_schedule routes origin_city destination_city travel_time
                    (departures dr) flights;
        Ok (routes, existing_routes, flights, draws)
  end.

Definition n_connections : nat := 50.

(** The loop [while len(existing_routes) < n_connections], from the empty
    network; [fuel] bounds its turns. *)
Fixpoint add_routes (fuel : nat) (draws : list route_draw) (routes : routes_t)
    (existing_routes : gset (city * city)) (flights : list flight)
  : result (routes_t * list flight) :=
  match fuel with
  | O => Err OutOfFuel
  | S fuel =>
      if (size existing_routes <? n_connections)%nat
      then
        '(routes, existing_routes, flights, draws) ←
          add_route draws routes existing_routes flights;
        add_routes fuel draws routes existing_routes flights
      else Ok (routes, flights)
  end.

(** What the source draws: a flight time of 90 to 540 minutes, one to seven
    departures, each on a weekday 1..7 at an hour 0..23 and a minute 0..59. *)
Definition departure_in_range (dr : departure_draw) : Prop :=
  1 <= direct_week_day dr <= 7 /\
  0 <= direct_hours dr <= 23 /\
  0 <= direct_minutes dr <= 59.

Definition draw_in_range (dr : route_draw) : Prop :=
  90 <= travel_time_minutes dr <= 540 /\
  departures dr <> [] /\
  Forall departure_in_range (departures dr).

(** What the generator keeps true of the network and of the timetable. *)
Record fixture (routes : routes_t) (existing_routes : gset (city * city))
    (flights : list flight) : Prop := {
  fixture_closed : closed_graph routes;
  fixture_durations : forall u v t,
    duration routes u v = Ok t -> duration routes v u = Ok t;
  fixture_existing : forall u v, edge routes u v <-> (u, v) ∈ existing_routes;
  fixture_wf : wf_timetable flights;
  fixture_flights : forall u v, edge routes u v -> pair_options flights u v <> []
}.

Definition cities : list city :=
  [ "A"; "B"; "C"; "D"; "E"; "F"; "G"; "H"; "I";
    "J"; "K"; "L"; "M"; "N"; "O"; "P"; "Q"; "R";
    "S"; "T"; "U"; "V"; "W"; "X"; "Y"; "Z" ]%string.

(** Draws that link each city to the next one of [cities], every second
    pair being drawn once more the other way round; one departure a week,
    on Sunday 23:59, with the longest flight time. *)
Definition chain_draw (a b : city) : route_draw :=
  {| origin_city := a; destination_city := b; travel_time_minutes := 540;
     departures := [ {| direct_week_day := 7; direct_hours := 23;
                        direct_minutes := 59; direct_price := 17000;
                        backward_price := 18000 |} ] |}.

Fixpoint chain_draws (l : list city) : list route_draw :=
  match l with
  | a :: (b :: _) as tl => chain_draw a b :: chain_draw b a :: chain_draws tl
  | _ => []
  end.

Definition chain_network : routes_t * list flight :=
  Eval vm_compute in
    match add_routes 26 (chain_draws cities) [] ∅ [] with
    | Ok x => x
    | Err _ => ([], [])
    end.

Section Timetable.

Lemma compare_same (s : string) : String.compare s s = Eq.
Proof.
  pose proof (String.compare_antisym s s) as H.
  destruct (String.compare s s); simpl in H; congruence.
Qed.

Lemma row_leb_same_pair (a b : city) (r1 r2 : flight) :
  on_pair a b r1 = true -> on_pair a b r2 = true -> row_leb r1 r2 = true ->
  stamp_le (week_day r1) (time r1) (week_day r2) (time r2).
Proof.
  unfold on_pair, row_leb, stamp_le.
  rewrite !andb_true_iff, !String.eqb_eq.
  intros [-> ->] [-> ->]. rewrite !compare_same.
  rewrite orb_true_iff, andb_true_iff. lia.
Qed.

Lemma filter_strongly_sorted {A} (R : A -> A -> Prop) (f : A -> bool) (l : list A) :
  StronglySorted R l -> StronglySorted R (List.filter f l).
Proof.
  induction 1 as [|x l Hl IH Hx]; simpl; [constructor|].
  destruct (f x); [|exact IH].
  constructor; [exact IH|].
  rewrite List.Forall_forall in *. intros y Hy.
  apply List.filter_In in Hy. apply Hx, Hy.
Qed.

(** In a sorted timetable the first row of a pair is its earliest of the
    week. *)
Lemma first_of_pair_is_earliest (flights : list flight) (a b : city) r0 rest :
  sorted_timetable flights ->
  pair_options flights a b = r0 :: rest ->
  forall r, In r (pair_options flights a b) ->
    stamp_le (week_day r0) (time r0) (week_day r) (time r).
Proof.
  intros Hs Hopt r Hr.
  assert (Hin : forall x, In x (pair_options flights a b) -> on_pair a b x = true).
  { intros x Hx. apply List.filter_In in Hx. apply Hx. }
  apply (filter_strongly_sorted _ (on_pair a b)) in Hs.
  fold (pair_options flights a b) in Hs. rewrite Hopt in *.
  destruct Hr as [<-|Hr]; [unfold stamp_le; lia|].
  apply StronglySorted_inv in Hs as [_ Hall].
  rewrite List.Forall_forall in Hall.
  apply (row_leb_same_pair a b); [apply Hin; now left|apply Hin; now right|].
  apply Hall, Hr.
Qed.

(** What [timedelta_to_day_hour_minutes] returns, field by field. *)
Lemma day_hour_minutes_spec (t : timedelta) :
  let '(day, hours, minutes) := timedelta_to_day_hour_minutes t in
  day = (if 7 <? td_days t then td_days t mod 7 else td_days t) /\
  0 <= hours <= 23 /\ 0 <= minutes <= 59 /\
  td 0 hours minutes = td_seconds t - td_seconds t mod 60.
Proof.
  unfold timedelta_to_day_hour_minutes, td, td_seconds, td_days.
  set (s := t mod 86400).
  assert (Hs : 0 <= s < 86400) by (apply Z.mod_pos_bound; lia).
  assert (Hh : 0 <= s / 3600 <= 23).
  { split; [apply Z.div_pos; lia|].
    apply Z.lt_succ_r, Z.div_lt_upper_bound; lia. }
  replace (24 <? s / 3600) with false by (symmetry; apply Z.ltb_ge; lia).
  split; [reflexivity|]. split; [exact Hh|].
  pose proof (Z.mod_pos_bound (s / 60) 60 ltac:(lia)).
  split; [lia|].
  pose proof (Z.div_mod s 60 ltac:(lia)).
  pose proof (Z.div_mod (s / 60) 60 ltac:(lia)).
  pose proof (Z.div_div s 60 60 ltac:(lia) ltac:(lia)) as Hdd.
  change (60 * 60) with 3600 in Hdd.
  lia.
Qed.

End Timetable.

(** ** The connecting flight *)

Section Resolver.

Variable routes : routes_t.
Variable flights : list flight.

Lemma wf_pair_options (a b : city) (r : flight) :
  wf_timetable flights -> In r (pair_options flights a b) -> wf_row r.
Proof.
  intros Hwf Hr. apply List.filter_In in Hr as [Hr _].
  unfold wf_timetable in Hwf. rewrite List.Forall_forall in Hwf. auto.
Qed.

Lemma week_days_wf (r : flight) :
  wf_row r -> exists name, week_days (week_day r) = Ok name.
Proof.
  intros [Hd _].
  assert (H : week_day r = 1 \/ week_day r = 2 \/ week_day r = 3 \/ week_day r = 4
              \/ week_day r = 5 \/ week_day r = 6 \/ week_day r = 7) by lia.
  destruct H as [->|[->|[->|[->|[->|[->| ->]]]]]]; simpl; eauto.
Qed.

(** Every connection leaves at least three hours after the arrival: the
    waiting time [gap] is never negative. *)
Lemma find_nearest_flight_later origin destination time_pos total_price c t p :
  wf_timetable flights ->
  find_nearest_flight routes flights origin destination time_pos total_price
    = Ok (c, t, p) ->
  exists d, duration routes origin destination = Ok d /\
            time_pos + td 0 3 0 + d <= t.
Proof.
  intros Hwf. unfold find_nearest_flight.
  pose proof (day_hour_minutes_spec (time_pos + td 0 3 0)) as Hn.
  destruct (timedelta_to_day_hour_minutes (time_pos + td 0 3 0))
    as [[day hours] minutes].
  destruct Hn as (Hday & Hh & Hm & Hhm).
  set (options := pair_options flights origin destination).
  set (same_week := List.filter (in_same_week day hours minutes) options).
  assert (Hday7 : day <= 7).
  { subst day. destruct (7 <? td_days (time_pos + td 0 3 0)) eqn:E.
    - pose proof (Z.mod_pos_bound (td_days (time_pos + td 0 3 0)) 7). lia.
    - apply Z.ltb_ge in E. lia. }
  assert (Hlt : 0 <= td 0 hours minutes < 86400) by (unfold td; lia).
  destruct same_week as [|r sw] eqn:Esw; simpl.
  - destruct options as [|r rest] eqn:Eo; [discriminate|].
    assert (Hr : wf_row r).
    { apply (wf_pair_options origin destination); [exact Hwf|].
      fold options. rewrite Eo. now left. }
    destruct (week_days (week_day r)) as [name|]; simpl; [|discriminate].
    destruct (duration routes origin destination) as [d|]; simpl; [|discriminate].
    intros [= <- <- <-]. exists d. split; [reflexivity|].
    destruct Hr as (Hd & Ht & _). unfold td in *. lia.
  - assert (Hr : In r same_week) by (rewrite Esw; now left).
    apply List.filter_In in Hr as [_ Hr].
    unfold in_same_week in Hr. apply andb_true_iff in Hr as [H1 H2].
    apply Z.leb_le in H1, H2.
    destruct (week_days (week_day r)) as [name|]; simpl; [|discriminate].
    destruct (duration routes origin destination) as [d|]; simpl; [|discriminate].
    intros [= <- <- <-]. exists d. split; [reflexivity|].
    unfold td in *. lia.
Qed.

(** A pair without flights: the positional access [options.iloc[0, :]]
    raises. *)
Lemma find_nearest_flight_none origin destination time_pos total_price :
  pair_options flights origin destination = [] ->
  find_nearest_flight routes flights origin destination time_pos total_price
    = Err IndexError.
Proof.
  intros H. unfold find_nearest_flight.
  destruct (timedelta_to_day_hour_minutes (time_pos + td 0 3 0))
    as [[day hours] minutes].
  rewrite H. reflexivity.
Qed.

(** A pair with a flight and an edge: a connection is always found. *)
Lemma find_nearest_flight_some origin destination time_pos total_price d :
  wf_timetable flights ->
  pair_options flights origin destination <> [] ->
  duration routes origin destination = Ok d ->
  exists c t p,
    find_nearest_flight routes flights origin destination time_pos total_price
      = Ok (c, t, p).
Proof.
  intros Hwf Hne Hd. unfold find_nearest_flight.
  destruct (timedelta_to_day_hour_minutes (time_pos + td 0 3 0))
    as [[day hours] minutes].
  set (options := pair_options flights origin destination) in *.
  set (same_week := List.filter (in_same_week day hours minutes) options).
  assert (Hsub : forall r, In r same_week -> In r options).
  { intros r Hr. apply List.filter_In in Hr. apply Hr. }
  assert (Hsel : exists r rest,
    (if (0 <? length same_week)%nat then same_week else options) = r :: rest
    /\ In r options).
  { destruct same_week as [|r sw]; simpl.
    - destruct options as [|r rest]; [congruence|].
      exists r, rest. split; [reflexivity|now left].
    - exists r, sw. split; [reflexivity|]. apply Hsub. now left. }
  destruct Hsel as (r & rest & -> & Hr).
  destruct (week_days_wf r) as [name ->].
  { apply (wf_pair_options origin destination); assumption. }
  simpl. rewrite Hd. simpl. eauto.
Qed.

End Resolver.

Section ResolverClaims.

Lemma at_or_after_stamp_le day hours minutes r :
  at_or_after day hours minutes r = true <->
  stamp_le day (td 0 hours minutes) (week_day r) (time r).
Proof.
  unfold at_or_after, stamp_le.
  rewrite orb_true_iff, andb_true_iff, Z.ltb_lt, Z.eqb_eq, Z.leb_le. tauto.
Qed.

(** The filter of the source asks for both a weekday and a time of day that
    are not earlier, so it keeps no more than the rows at or after the
    earliest allowed moment. *)
Lemma in_same_week_at_or_after day hours minutes r :
  in_same_week day hours minutes r = true -> at_or_after day hours minutes r = true.
Proof.
  unfold in_same_week, at_or_after.
  rewrite andb_true_iff, orb_true_iff, andb_true_iff.
  rewrite !Z.leb_le, Z.ltb_lt, Z.eqb_eq. lia.
Qed.

(** The wrap to the next week, where the weekday is right.  [day] is the
    weekday that [timedelta_to_day_hour_minutes] returns for the arrival
    plus three hours.  When a pair has flights but none at or after
    [day], [hours]:[minutes], [find_nearest_flight] takes the first row of
    the pair, which is the earliest of the week in a sorted timetable, and
    adds seven days to the gap: the departure is not before the earliest
    allowed instant and lies in the next 7-day cycle.  (For a day count of
    14, 21, ... [day] is 0 and every row of a well-formed timetable is
    after it, so the statement says nothing of those arrivals.) *)
Theorem next_cycle_wrap
    (routes : routes_t) (flights : list flight) (origin destination : city)
    (time_pos : timedelta) (total_price : Z)
    (day hours minutes : Z) (r0 : flight) (rest : list flight) (d : timedelta) :
  wf_timetable flights ->
  sorted_timetable flights ->
  timedelta_to_day_hour_minutes (time_pos + td 0 3 0) = (day, hours, minutes) ->
  pair_options flights origin destination = r0 :: rest ->
  duration routes origin destination = Ok d ->
  (forall r, In r (pair_options flights origin destination) ->
             at_or_after day hours minutes r = false) ->
  exists day_name departure,
    week_days (week_day r0) = Ok day_name /\
    find_nearest_flight routes flights origin destination time_pos total_price
      = Ok ((" " ++ origin ++ " " ++ day_name ++ " "
               ++ timedelta_to_formatted_string (time r0))%string,
            departure + d, total_price + price r0) /\
    (forall r, In r (pair_options flights origin destination) ->
               stamp_le (week_day r0) (time r0) (week_day r) (time r)) /\
    departure = time_pos + td 0 3 0
                + (td (week_day r0) 0 0 + time r0 - td day hours minutes + td 7 0 0) /\
    time_pos + td 0 3 0 <= departure /\
    cycle departure = cycle (time_pos + td 0 3 0) + 1.
Proof.
  intros Hwf Hs Hn Hopt Hd Hnone.
  assert (Hr0 : In r0 (pair_options flights origin destination))
    by (rewrite Hopt; now left).
  assert (Hwf0 : wf_row r0) by (eapply wf_pair_options; eassumption).
  destruct (week_days_wf r0 Hwf0) as [name Hname].
  exists name. eexists. split; [exact Hname|].
  assert (Hsw : List.filter (in_same_week day hours minutes)
                  (pair_options flights origin destination) = []).
  { destruct (List.filter _ _) as [|r sw] eqn:E; [reflexivity|].
    assert (Hr : In r (r :: sw)) by now left.
    rewrite <- E in Hr. apply List.filter_In in Hr as [Hr Hin].
    apply in_same_week_at_or_after in Hin. rewrite (Hnone r Hr) in Hin.
    discriminate. }
  split.
  { unfold find_nearest_flight. rewrite Hn, Hsw. simpl. rewrite Hopt.
    rewrite Hname. simpl. rewrite Hd. simpl. reflexivity. }
  split; [eapply first_of_pair_is_earliest; eassumption|].
  split; [reflexivity|].
  pose proof (day_hour_minutes_spec (time_pos + td 0 3 0)) as Hspec.
  rewrite Hn in Hspec. destruct Hspec as (Hday & Hh & Hm & Hhm).
  specialize (Hnone r0 Hr0).
  assert (Hbefore : ~ stamp_le day (td 0 hours minutes) (week_day r0) (time r0)).
  { rewrite <- at_or_after_stamp_le. congruence. }
  unfold stamp_le in Hbefore.
  destruct Hwf0 as (Hwd & Ht & Ht60).
  set (T := time_pos + td 0 3 0) in *.
  assert (HT : T = 86400 * td_days T + td_seconds T)
    by (apply Z.div_mod; lia).
  assert (Hsec : 0 <= td_seconds T < 86400) by (apply Z.mod_pos_bound; lia).
  assert (Hs60 : 0 <= td_seconds T mod 60 < 60) by (apply Z.mod_pos_bound; lia).
  assert (Ht' : time r0 <= 86340).
  { pose proof (Z.div_mod (time r0) 60 ltac:(lia)). lia. }
  assert (Hday7 : 1 <= day <= 7 /\ exists q, 0 <= q /\ td_days T = 7 * q + day
                                       /\ (q = 0 \/ day <= 6)).
  { destruct (7 <? td_days T) eqn:E.
    - apply Z.ltb_lt in E.
      pose proof (Z.mod_pos_bound (td_days T) 7 ltac:(lia)).
      pose proof (Z.div_mod (td_days T) 7 ltac:(lia)).
      split; [lia|]. exists (td_days T / 7). subst day.
      split; [apply Z.div_pos; lia|]. split; [lia|]. right. lia.
    - apply Z.ltb_ge in E. split; [lia|]. exists 0. lia. }
  destruct Hday7 as (Hd17 & q & Hq & HDq & Hq6).
  split; [unfold td in *; lia|].
  unfold cycle.
  assert (Hdep : td_days (T + (td (week_day r0) 0 0 + time r0
                                 - td day hours minutes + td 7 0 0))
                 = td_days T - day + week_day r0 + 7).
  { unfold td_days at 1. symmetry.
    apply (Z.div_unique _ _ _ (time r0 + td_seconds T mod 60)); [lia|].
    unfold td in *. lia. }
  rewrite Hdep, HDq.
  replace (7 * q + day - day + week_day r0 + 7 - 1)
    with (week_day r0 - 1 + (q + 1) * 7) by lia.
  replace (7 * q + day - 1) with (day - 1 + q * 7) by lia.
  rewrite !Z.div_add by lia.
  rewrite !Z.div_small by lia. lia.
Qed.

Lemma abc_flights_wf : wf_timetable abc_flights.
Proof. repeat constructor; vm_compute; congruence. Defined.

Lemma abc_flights_sorted : sorted_timetable abc_flights.
Proof. repeat constructor. Defined.

(** Arrival on Monday 19:00: both B->C flights of Monday are over. *)
Lemma next_cycle_wrap_witness :
  exists day_name departure,
    week_days 1 = Ok day_name /\
    find_nearest_flight abc_routes abc_flights "B" "C" (td 1 19 0) 100
      = Ok ((" " ++ "B" ++ " " ++ day_name ++ " "
               ++ timedelta_to_formatted_string (td 0 12 0))%string,
            departure + td 0 3 0, 100 + 150) /\
    (forall r, In r (pair_options abc_flights "B" "C") ->
               stamp_le 1 (td 0 12 0) (week_day r) (time r)) /\
    departure = td 1 19 0 + td 0 3 0
                + (td 1 0 0 + td 0 12 0 - td 1 22 0 + td 7 0 0) /\
    td 1 19 0 + td 0 3 0 <= departure /\
    cycle departure = cycle (td 1 19 0 + td 0 3 0) + 1.
Proof.
  apply (next_cycle_wrap abc_routes abc_flights "B" "C" (td 1 19 0) 100
           1 22 0 (mk_flight "B" "C" 1 12 0 150) [mk_flight "B" "C" 1 20 0 140]
           (td 0 3 0)).
  - exact abc_flights_wf.
  - exact abc_flights_sorted.
  - reflexivity.
  - reflexivity.
  - reflexivity.
  - intros r [<-|[<-|[]]]; reflexivity.
Defined.

End ResolverClaims.

Section ResolverDefects.

(** C1. Arrival in B on Monday 06:30, so the earliest allowed moment is
    Monday 09:30.  The first B->C row at or after it is Tuesday 09:00, but
    the filter of [find_nearest_flight] drops that row (its time of day,
    09:00, is before 09:30), finds no flight in the rest of the week, and
    takes Monday 08:00 of the following week instead. *)
Theorem same_week_skips_later_weekday :
  timedelta_to_day_hour_minutes (td 1 6 30 + td 0 3 0) = (1, 9, 30) /\
  List.find (at_or_after 1 9 30) (pair_options two_day_flights "B" "C")
    = Some (mk_flight "B" "C" 2 9 0 140) /\
  List.filter (in_same_week 1 9 30) (pair_options two_day_flights "B" "C") = [] /\
  find_nearest_flight abc_routes two_day_flights "B" "C" (td 1 6 30) 100
    = Ok (" B Понедельник 08:00"%string, td 8 8 0 + td 0 3 0, 100 + 150) /\
  find_flights abc_routes two_day_flights ["A"; "B"; "C"]%string
    = Ok [ {| option_flights := "A Понедельник 04:30 B Понедельник 08:00";
              option_price := 250;
              travel_time := td 8 11 0 - td 1 4 30 |} ].
Proof. repeat split; reflexivity. Qed.

(** C5. A day count of 14 is above 7 and a multiple of 7, so the weekday
    comes out as 0, which is no key of [week_days].  The value arises on the
    path A, B, C, D with Sunday flights: the passenger lands in C at 13:00
    of day 14, a Sunday; the Sunday 18:00 flight to D is then taken a week
    late, at 18:00 of day 21. *)
Theorem weekday_zero_after_two_weeks :
  td_days (td 14 16 0) = 14 /\
  timedelta_to_day_hour_minutes (td 14 16 0) = (0, 16, 0) /\
  week_days 0 = Err KeyError /\
  find_nearest_flight abcd_routes sunday_flights "B" "C" (td 7 22 0) 100
    = Ok (" B Воскресенье 10:00"%string, td 14 13 0, 250) /\
  find_nearest_flight abcd_routes sunday_flights "C" "D" (td 14 13 0) 250
    = Ok (" C Воскресенье 18:00"%string, td 21 18 0 + td 0 1 0, 370) /\
  find_flights abcd_routes sunday_flights ["A"; "B"; "C"; "D"]%string
    = Ok [ {| option_flights :=
                "A Воскресенье 20:00 B Воскресенье 10:00 C Воскресенье 18:00";
              option_price := 370;
              travel_time := td 21 19 0 - td 7 20 0 |} ].
Proof. repeat split; reflexivity. Qed.

(** C6. With B->C on Monday 08:00 and Tuesday 09:00, the passenger who
    arrives on Monday 06:30 leaves on Monday of the next week, later than
    the passenger who arrives on Tuesday 05:00 and leaves that Tuesday. *)
Theorem later_arrival_earlier_departure :
  td 1 6 30 < td 2 5 0 /\
  find_nearest_flight abc_routes two_day_flights "B" "C" (td 1 6 30) 0
    = Ok (" B Понедельник 08:00"%string, td 8 8 0 + td 0 3 0, 150) /\
  find_nearest_flight abc_routes two_day_flights "B" "C" (td 2 5 0) 0
    = Ok (" B Вторник 09:00"%string, td 2 9 0 + td 0 3 0, 140) /\
  td 2 9 0 < td 8 8 0.
Proof. repeat split; reflexivity. Qed.

(** C2. The passenger lands in C at 13:00 of day 14, a Sunday of the
    second cycle, so the earliest allowed moment is that Sunday 16:00.  The
    only flight from C to D leaves on Sunday 10:00: none is left in this
    week, and the first one of the next cycle leaves at 10:00 of day 21.
    The code takes day 14 for weekday 0, counts the gap from there and adds
    the seven days on top: it leaves at 10:00 of day 28, two cycles later. *)
Theorem wrap_lands_two_cycles_later :
  td_days (td 14 13 0 + td 0 3 0) = 14 /\
  cycle (td 14 13 0 + td 0 3 0) = 1 /\
  timedelta_to_day_hour_minutes (td 14 13 0 + td 0 3 0) = (0, 16, 0) /\
  pair_options sunday_morning_flights "C" "D" = [mk_flight "C" "D" 7 10 0 120] /\
  at_or_after 7 16 0 (mk_flight "C" "D" 7 10 0 120) = false /\
  cycle (td 21 10 0) = 2 /\
  find_nearest_flight abcd_routes sunday_morning_flights "C" "D" (td 14 13 0) 250
    = Ok (" C Воскресенье 10:00"%string, td 28 10 0 + td 0 1 0, 250 + 120) /\
  cycle (td 28 10 0) = 3 /\
  find_flights abcd_routes sunday_morning_flights ["A"; "B"; "C"; "D"]%string
    = Ok [ {| option_flights :=
                "A Воскресенье 20:00 B Воскресенье 10:00 C Воскресенье 10:00";
              option_price := 370;
              travel_time := td 28 11 0 - td 7 20 0 |} ].
Proof. repeat split; reflexivity. Qed.

End ResolverDefects.

(** ** The itineraries of a path *)

Section Assembler.

Variable routes : routes_t.
Variable flights : list flight.
Hypothesis flights_wf : wf_timetable flights.

Lemma for_each_ok {A B} (f : A -> result B) (l : list A) (bs : list B) :
  for_each f l = Ok bs -> Forall2 (fun a b => f a = Ok b) l bs.
Proof.
  revert bs. induction l as [|a l IH]; simpl; intros bs H.
  - injection H as <-. constructor.
  - destruct (f a) as [b|] eqn:Ea; simpl in H; [|discriminate].
    destruct (for_each f l) as [bs'|]; simpl in H; [|discriminate].
    injection H as <-. constructor; auto.
Qed.

Lemma for_each_total {A B} (f : A -> result B) (l : list A) :
  (forall a, In a l -> exists b, f a = Ok b) ->
  exists bs, for_each f l = Ok bs.
Proof.
  induction l as [|a l IH]; simpl; intros H; [eauto|].
  destruct (H a) as [b ->]; [now left|].
  destruct IH as [bs ->]; [intros; apply H; now right|].
  simpl. eauto.
Qed.

Lemma for_each_err {A B} (f : A -> result B) (a : A) (l : list A) :
  (exists e, f a = Err e) -> exists e, for_each f (a :: l) = Err e.
Proof. intros [e H]. simpl. rewrite H. simpl. eauto. Qed.

Lemma airborne_time_cons a b rest :
  airborne_time routes (a :: b :: rest)
  = (d ← duration routes a b; s ← airborne_time routes (b :: rest); Ok (d + s)).
Proof. reflexivity. Qed.

(** The running time after the remaining legs is at least the running time
    before them plus their flight durations. *)
Lemma connect_later city_to rest text t p text' t' p' :
  connect routes flights city_to rest text t p = Ok (text', t', p') ->
  exists air, airborne_time routes (city_to :: rest) = Ok air /\ t + air <= t'.
Proof.
  revert city_to text t p. induction rest as [|next rest IH]; intros city_to text t p.
  - simpl. intros [= <- <- <-]. exists 0. split; [reflexivity|lia].
  - cbn [connect].
    destruct (find_nearest_flight routes flights city_to next t p)
      as [[[c t1] p1]|] eqn:E; cbn [mbind result_bind]; [|discriminate].
    intros H. apply IH in H as (air & Hair & Hle).
    apply find_nearest_flight_later in E as (d & Hd & Hle1); [|exact flights_wf].
    exists (d + air). split.
    + rewrite airborne_time_cons, Hd. cbn [mbind result_bind].
      rewrite Hair. reflexivity.
    + unfold td in *. lia.
Qed.

(** When every remaining leg has an edge and a flight, every connection is
    found. *)
Lemma connect_total city_to rest text t p :
  (forall a b, consecutive a b (city_to :: rest) ->
     pair_options flights a b <> [] /\ exists d, duration routes a b = Ok d) ->
  exists text' t' p',
    connect routes flights city_to rest text t p = Ok (text', t', p').
Proof.
  revert city_to text t p. induction rest as [|next rest IH];
    intros city_to text t p H.
  - simpl. eauto.
  - cbn [connect].
    destruct (H city_to next) as (Hne & d & Hd).
    { exists [], rest. reflexivity. }
    destruct (find_nearest_flight_some routes flights city_to next t p d
                flights_wf Hne Hd) as (c & t1 & p1 & ->).
    simpl. apply IH. intros a b (l1 & l2 & E).
    apply H. exists (city_to :: l1), l2. rewrite E. reflexivity.
Qed.

End Assembler.

Section AssemblerClaims.



(** C7. For a path whose first leg has k rows in the timetable,
    [find_flights] returns at most k options, and the travel time of each
    is at least the time on board, the sum of the flight durations of the
    legs of the path. *)
Theorem assembler_bound
    (routes : routes_t) (flights : list flight)
    (c0 c1 : city) (rest : list city) (opts : list itinerary) :
  wf_timetable flights ->
  find_flights routes flights (c0 :: c1 :: rest) = Ok opts ->
  (length opts <= length (pair_options flights c0 c1))%nat /\
  Forall (fun o => exists air,
            airborne_time routes (c0 :: c1 :: rest) = Ok air /\
            air <= travel_time o) opts.
Proof.
  intros Hwf H. unfold find_flights in H. apply for_each_ok in H.
  split; [apply Forall2_length in H; lia|].
  induction H as [|r o rs os Hro _ IH]; constructor; [|exact IH].
  unfold start_option in Hro.
  destruct (week_days (week_day r)) as [name|]; cbn [mbind result_bind] in Hro;
    [|discriminate].
  destruct (duration routes c0 c1) as [d|] eqn:Hd; cbn [mbind result_bind] in Hro;
    [|discriminate].
  destruct (connect _ _ _ _ _ _ _) as [[[text' t'] p']|] eqn:Hc;
    cbn [mbind result_bind] in Hro; [|discriminate].
  injection Hro as <-. cbn [travel_time].
  apply connect_later in Hc as (air & Hair & Hle); [|exact Hwf].
  exists (d + air). split; [|lia].
  rewrite airborne_time_cons, Hd. cbn [mbind result_bind]. rewrite Hair.
  reflexivity.
Qed.

Lemma assembler_bound_witness :
  (length [ {| option_flights := "A Понедельник 08:00 B Понедельник 20:00";
               option_price := 240; travel_time := td 0 15 0 |} ]
   <= length (pair_options abc_flights "A" "B"))%nat /\
  Forall (fun o => exists air,
            airborne_time abc_routes ["A"; "B"; "C"]%string = Ok air /\
            air <= travel_time o)
    [ {| option_flights := "A Понедельник 08:00 B Понедельник 20:00";
         option_price := 240; travel_time := td 0 15 0 |} ].
Proof.
  apply (assembler_bound abc_routes abc_flights "A" "B" ["C"%string]).
  - exact abc_flights_wf.
  - reflexivity.
Defined.


End AssemblerClaims.

Section AssemblerExamples.

Lemma consecutive_inv (a b x y : city) (l : list city) :
  consecutive a b (x :: y :: l) -> (a = x /\ b = y) \/ consecutive a b (y :: l).
Proof.
  intros (l1 & l2 & E). destruct l1 as [|z l1]; simpl in E.
  - injection E as <- <- <-. now left.
  - injection E as <- E. right. exists l1, l2. exact E.
Qed.

Lemma consecutive_single (a b x : city) : ~ consecutive a b [x].
Proof.
  intros (l1 & l2 & E). destruct l1 as [|z [|z' l1]]; discriminate.
Qed.


(** With no B->C flight the whole of [find_flights] raises: no list of
    options, shorter or empty, is returned. *)
Lemma missing_leg_no_result :
  pair_options no_bc_flights "B" "C" = [] /\
  length (pair_options no_bc_flights "A" "B") = 1%nat /\
  find_flights abc_routes no_bc_flights ["A"; "B"; "C"]%string = Err IndexError /\
  ~ exists opts,
      find_flights abc_routes no_bc_flights ["A"; "B"; "C"]%string = Ok opts.
Proof.
  repeat split. intros [opts H]. discriminate H.
Qed.

Lemma connect_missing routes flights a b city_to rest text t p :
  consecutive a b (city_to :: rest) ->
  pair_options flights a b = [] ->
  exists e, connect routes flights city_to rest text t p = Err e.
Proof.
  revert city_to text t p. induction rest as [|next rest IH];
    intros city_to text t p Hc Hnone.
  - destruct (consecutive_single _ _ _ Hc).
  - cbn [connect]. apply consecutive_inv in Hc as [[-> ->]|Hc].
    + rewrite find_nearest_flight_none by exact Hnone.
      cbn [mbind result_bind]. eauto.
    + destruct (find_nearest_flight routes flights city_to next t p)
        as [[[c t1] p1]|e]; cbn [mbind result_bind]; [|eauto].
      apply IH; assumption.
Qed.

(** C4 (as the code has it).  When some leg after the first has no flight
    in the timetable, [find_nearest_flight] raises [IndexError] for that
    pair, and [find_flights] raises as soon as the first leg has a
    candidate: no candidate is dropped and no list is returned. *)
Theorem missing_flight_raises
    (routes : routes_t) (flights : list flight)
    (c0 c1 : city) (rest : list city) (a b : city) :
  pair_options flights c0 c1 <> [] ->
  consecutive a b (c1 :: rest) ->
  pair_options flights a b = [] ->
  (forall t p, find_nearest_flight routes flights a b t p = Err IndexError) /\
  exists e, find_flights routes flights (c0 :: c1 :: rest) = Err e.
Proof.
  intros Hfirst Hc Hnone. split.
  - intros t p. apply find_nearest_flight_none, Hnone.
  - unfold find_flights.
    destruct (pair_options flights c0 c1) as [|r rs]; [congruence|].
    apply for_each_err. unfold start_option.
    destruct (week_days (week_day r)) as [name|e]; cbn [mbind result_bind];
      [|eauto].
    destruct (duration routes c0 c1) as [d|e]; cbn [mbind result_bind]; [|eauto].
    match goal with |- context [connect ?a ?b ?c ?d ?e ?f ?g] =>
      destruct (connect_missing a b _ _ c d e f g Hc Hnone) as [e' ->]
    end.
    cbn [mbind result_bind]. eauto.
Qed.

Lemma missing_flight_raises_witness :
  (forall t p,
     find_nearest_flight abc_routes no_bc_flights "B" "C" t p = Err IndexError) /\
  exists e, find_flights abc_routes no_bc_flights ["A"; "B"; "C"]%string = Err e.
Proof.
  apply (missing_flight_raises abc_routes no_bc_flights "A" "B" ["C"%string] "B" "C").
  - discriminate.
  - exists [], []. reflexivity.
  - reflexivity.
Defined.

(** C9. Edges A-B (2h) and B-C (3h); A->B Monday 08:00 for 100, B->C Monday
    12:00 for 150 and Monday 20:00 for 140.  The query from A to C gives the
    path A, B, C with 5 hours on board and one option: Monday 08:00 from A,
    in B at 10:00, earliest connection 13:00, so the 20:00 flight from B;
    price 240, travel time 15 hours. *)
Theorem end_to_end_scenario :
  find_path abc_routes "A" "C" = Ok (Some ["A"; "B"; "C"]%string) /\
  airborne_time abc_routes ["A"; "B"; "C"]%string = Ok (td 0 5 0) /\
  td 1 8 0 + td 0 2 0 = td 1 10 0 /\
  timedelta_to_day_hour_minutes (td 1 10 0 + td 0 3 0) = (1, 13, 0) /\
  at_or_after 1 13 0 (mk_flight "B" "C" 1 12 0 150) = false /\
  find_nearest_flight abc_routes abc_flights "B" "C" (td 1 10 0) 100
    = Ok (" B Понедельник 20:00"%string, td 1 20 0 + td 0 3 0, 240) /\
  query abc_routes abc_flights "A" "C"
    = Ok (Route ["A"; "B"; "C"]%string "05:00"
            [ {| option_flights := "A Понедельник 08:00 B Понедельник 20:00";
                 option_price := 240;
                 travel_time := td 0 15 0 |} ]).
Proof. repeat split; vm_compute; reflexivity. Qed.

End AssemblerExamples.

(** * Properties of the route search *)

Section Network.

Variable routes : routes_t.

Lemma string_eqb_false (a b : string) : a <> b -> String.eqb a b = false.
Proof. apply String.eqb_neq. Qed.

Lemma assoc_In {B} (k : city) (l : list (city * B)) :
  In k (map fst l) <-> exists v, assoc k l = Some v.
Proof.
  induction l as [|[k' v'] l IH]; simpl.
  - split; [tauto|]. intros [v H]. discriminate.
  - destruct (String.eqb_spec k k') as [->|Hne].
    + split; eauto.
    + rewrite <- IH. split; [|tauto]. intros [H|H]; [congruence|exact H].
Qed.

Lemma has_key_In (v : city) : has_key routes v = true <-> In v (map fst routes).
Proof.
  rewrite assoc_In. unfold has_key. destruct (assoc v routes).
  - split; eauto.
  - split; [discriminate|]. intros [x H]. discriminate.
Qed.

Lemma edge_duration (u v : city) :
  edge routes u v -> exists d, duration routes u v = Ok d.
Proof.
  unfold edge, duration. rewrite assoc_In. intros [d ->]. eauto.
Qed.

Lemma unset_lookup {V} (v : city) :
  @unset V routes !! v = if has_key routes v then Some None else None.
Proof.
  unfold unset, has_key. induction routes as [|[k x] l IH]; simpl.
  - apply lookup_empty.
  - destruct (String.eqb_spec v k) as [->|Hne].
    + apply lookup_insert_eq.
    + rewrite lookup_insert_ne by congruence. exact IH.
Qed.

Lemma route_length (s v : city) (p : list city) :
  route routes s v p -> (1 <= length p)%nat.
Proof. destruct 1; [simpl; lia|]. rewrite length_app. simpl. lia. Qed.

Lemma route_single (s v : city) (p : list city) :
  route routes s v p -> length p = 1%nat -> v = s.
Proof.
  destruct 1 as [|u v p Hp _]; [reflexivity|].
  apply route_length in Hp. rewrite length_app. simpl. lia.
Qed.

Lemma filter_out_length (w : city) (U : list city) :
  In w U ->
  (length (List.filter (fun v => negb (String.eqb v w)) U) < length U)%nat.
Proof.
  induction U as [|x U IH]; simpl; [tauto|].
  assert (Hle : (length (List.filter (fun v => negb (String.eqb v w)) U)
                 <= length U)%nat) by apply List.filter_length_le.
  destruct (String.eqb_spec x w) as [->|Hne]; simpl.
  - lia.
  - intros [H|H]; [congruence|]. specialize (IH H). lia.
Qed.

End Network.

Section Search.

Variable routes : routes_t.
Variables s e : city.
Hypothesis routes_closed : closed_graph routes.

Lemma has_level_fun st v d1 d2 :
  has_level st d1 v -> has_level st d2 v -> d1 = d2.
Proof. unfold has_level. congruence. Qed.

(** [core] does not look at the queue. *)
Lemma core_queue st q :
  core routes s e st ->
  core routes s e {| n_routes := n_routes st; parents := parents st;
                     queue := q; path_exists := path_exists st |}.
Proof. intros [H1 H2 H3 H4 H5 H6]. constructor; assumption. Qed.

Lemma initial_core :
  has_key routes s = true -> core routes s e (initial routes s).
Proof.
  intros Hs.
  assert (Hlvl : forall v d, has_level (initial routes s) d v -> v = s /\ d = 0%nat).
  { unfold has_level, initial. simpl. intros v d H.
    destruct (decide (s = v)) as [->|Hne].
    - rewrite lookup_insert_eq in H. split; congruence.
    - rewrite lookup_insert_ne, unset_lookup in H by exact Hne.
      destruct (has_key routes v); discriminate. }
  constructor.
  - intros v. unfold initial. simpl.
    destruct (decide (s = v)) as [->|Hne].
    + rewrite lookup_insert_eq. split; eauto.
    + rewrite lookup_insert_ne, unset_lookup by exact Hne.
      destruct (has_key routes v); split; intros H;
        try reflexivity; try discriminate; eauto; destruct H; discriminate.
  - intros v. unfold initial. simpl. rewrite unset_lookup.
    destruct (has_key routes v); split; intros H;
        try reflexivity; try discriminate; eauto; destruct H; discriminate.
  - unfold has_level, initial. simpl. apply lookup_insert_eq.
  - intros v d H. apply Hlvl in H as [-> ->]. split.
    + exists [s]. split; [constructor|reflexivity].
    + intros p Hp. apply route_length in Hp. lia.
  - intros v d H. apply Hlvl in H as [-> ->].
    unfold initial. simpl. rewrite unset_lookup, Hs. reflexivity.
  - simpl. intros Hne [d H]. apply Hlvl in H as [-> _]. congruence.
Qed.

Lemma initial_frontier : frontier routes (initial routes s).
Proof.
  constructor.
  - exists 0%nat, [s], []. simpl. repeat split; [|constructor].
    constructor; [|constructor].
    unfold has_level. simpl. apply lookup_insert_eq.
  - intros u [d H] Hq. exfalso. apply Hq. simpl. left.
    unfold has_level, initial in H. simpl in H.
    destruct (decide (s = u)) as [->|Hne]; [reflexivity|].
    rewrite lookup_insert_ne, unset_lookup in H by exact Hne.
    destruct (has_key routes u); discriminate.
Qed.

Lemma initial_measure :
  has_key routes s = true -> measure routes (initial routes s) (length routes).
Proof.
  intros Hs. apply has_key_In in Hs.
  pose proof (filter_out_length s (map fst routes) Hs) as Hlen.
  rewrite length_map in Hlen.
  exists (List.filter (fun v => negb (String.eqb v s)) (map fst routes)).
  split; [|split].
  - unfold initial. simpl. intros v H.
    destruct (decide (s = v)) as [->|Hne].
    + rewrite lookup_insert_eq in H. discriminate.
    + rewrite lookup_insert_ne, unset_lookup in H by exact Hne.
      apply List.filter_In. split.
      * apply has_key_In. destruct (has_key routes v); [reflexivity|discriminate].
      * rewrite string_eqb_false by congruence. reflexivity.
  - change (queue (initial routes s)) with [s].
    change (length [s]) with 1%nat. lia.
  - intros v d H. unfold has_level, initial in H. simpl in H.
    destruct (decide (s = v)) as [->|Hne].
    + rewrite lookup_insert_eq in H. injection H as <-. lia.
    + rewrite lookup_insert_ne, unset_lookup in H by exact Hne.
      destruct (has_key routes v); discriminate.
Qed.

(** Recording a new city keeps what was recorded. *)
Lemma discover_keeps st w x d v :
  n_routes st !! w = Some None ->
  n_routes st !! v = Some (Some d) ->
  <[w := x]> (n_routes st) !! v = Some (Some d).
Proof.
  intros Hw Hv. rewrite lookup_insert_ne; [exact Hv|]. intros ->. congruence.
Qed.

Lemma discover_inv (m : gmap city (option nat)) w k d v :
  <[w := Some k]> m !! v = Some (Some d) ->
  (v = w /\ d = k) \/ (v <> w /\ m !! v = Some (Some d)).
Proof.
  destruct (decide (w = v)) as [->|Hne].
  - rewrite lookup_insert_eq. intros [= <-]. now left.
  - rewrite lookup_insert_ne by exact Hne. intros H. right. split; congruence.
Qed.

Lemma core_discover st cur k w :
  core routes s e st ->
  path_exists st = false ->
  has_level st k cur ->
  n_routes st !! w = Some None ->
  edge routes cur w ->
  (forall v p, route routes s v p -> (length p <= S k)%nat -> discovered st v) ->
  core routes s e
    {| n_routes := <[w := Some (S k)]> (n_routes st);
       parents := <[w := Some cur]> (parents st);
       queue := queue st ++ [w];
       path_exists := String.eqb w e |}.
Proof.
  intros [Hkn Hkp Hstart Hlevel Hparent Hfound] Hpe Hcur Hw Hedge Hnear.
  rewrite Hpe in Hfound.
  assert (Hkey : has_key routes w = true) by (apply Hkn; rewrite Hw; eauto).
  assert (Hcw : cur <> w) by (intros ->; unfold has_level in Hcur; congruence).
  constructor; simpl.
  - intros v. destruct (decide (w = v)) as [<-|Hne].
    + rewrite lookup_insert_eq. split; eauto.
    + rewrite lookup_insert_ne by exact Hne. apply Hkn.
  - intros v. destruct (decide (w = v)) as [<-|Hne].
    + rewrite lookup_insert_eq. split; eauto.
    + rewrite lookup_insert_ne by exact Hne. apply Hkp.
  - apply discover_keeps; assumption.
  - intros v d H. apply discover_inv in H as [[-> ->]|[Hne H]]; [|auto].
    destruct (Hlevel cur k Hcur) as [(p & Hp & Hlen) _]. split.
    + exists (p ++ [w]). split; [econstructor; eassumption|].
      rewrite length_app. simpl. lia.
    + intros p' Hp'.
      destruct (Nat.le_gt_cases (S (S k)) (length p')) as [|Hlt]; [assumption|].
      destruct (Hnear w p' Hp') as [d Hd]; [lia|].
      unfold has_level in Hd. congruence.
  - intros v d H. apply discover_inv in H as [[-> ->]|[Hne H]].
    + exists cur. rewrite lookup_insert_eq. split; [reflexivity|].
      split; [exact Hedge|]. apply discover_keeps; assumption.
    + specialize (Hparent v d H). rewrite lookup_insert_ne by congruence.
      destruct d as [|d']; [exact Hparent|].
      destruct Hparent as (u & Hu & Hed & Hlu). exists u.
      split; [exact Hu|]. split; [exact Hed|]. apply discover_keeps; assumption.
  - destruct (String.eqb_spec w e) as [<-|Hne].
    + exists k. apply lookup_insert_eq.
    + intros Hes [d H]. apply discover_inv in H as [[-> ->]|[_ H]]; [congruence|].
      apply (Hfound Hes). exists d. exact H.
Qed.

Lemma measure_discover st n cur k w pa b :
  measure routes st n ->
  has_level st k cur ->
  n_routes st !! w = Some None ->
  measure routes
    {| n_routes := <[w := Some (S k)]> (n_routes st);
       parents := pa;
       queue := queue st ++ [w];
       path_exists := b |} n.
Proof.
  intros (U & Hu & Hn & Hlv) Hcur Hw.
  pose proof (filter_out_length w U (Hu w Hw)) as Hlen.
  exists (List.filter (fun v => negb (String.eqb v w)) U). simpl.
  split; [|split].
  - intros v H. destruct (decide (w = v)) as [<-|Hne].
    + rewrite lookup_insert_eq in H. discriminate.
    + rewrite lookup_insert_ne in H by exact Hne.
      apply List.filter_In. split; [auto|].
      rewrite string_eqb_false by congruence. reflexivity.
  - rewrite length_app. simpl. lia.
  - intros v d H. apply discover_inv in H as [[-> ->]|[_ H]].
    + specialize (Hlv cur k Hcur). lia.
    + specialize (Hlv v d H). lia.
Qed.

End Search.

Section SearchLoops.

Variable routes : routes_t.
Variables s e : city.
Hypothesis routes_closed : closed_graph routes.

Lemma two_levels_discover st k w pa b :
  n_routes st !! w = Some None ->
  two_levels st k ->
  two_levels
    {| n_routes := <[w := Some (S k)]> (n_routes st);
       parents := pa; queue := queue st ++ [w]; path_exists := b |} k.
Proof.
  intros Hw (q1 & q2 & Hq & H1 & H2).
  exists q1, (q2 ++ [w]). simpl. rewrite Hq, app_assoc.
  split; [reflexivity|].
  assert (Hkeep : forall d l, Forall (has_level st d) l ->
            Forall (fun v => <[w := Some (S k)]> (n_routes st) !! v = Some (Some d)) l).
  { intros d l Hl. eapply List.Forall_impl; [|exact Hl].
    intros v Hv. apply discover_keeps; assumption. }
  split; [apply Hkeep, H1|].
  apply List.Forall_app. split; [apply Hkeep, H2|].
  constructor; [|constructor]. unfold has_level. simpl. apply lookup_insert_eq.
Qed.

(** The [for] loop: every neighbour is looked up without [KeyError], and
    the loop ends either with [end_vertex] found or with all neighbours of
    [cur] discovered. *)
Lemma visit_spec neighs : forall st cur k n,
  core routes s e st ->
  path_exists st = false ->
  visiting routes s cur k neighs st ->
  measure routes st n ->
  exists st',
    visit e cur neighs st = Ok st' /\
    core routes s e st' /\
    (path_exists st' = false -> frontier routes st') /\
    measure routes st' n.
Proof.
  induction neighs as [|w rest IH]; intros st cur k n Hcore Hpe Hv Hm.
  - exists st. split; [reflexivity|]. split; [exact Hcore|]. split; [|exact Hm].
    intros _. destruct Hv as [Hcur Hq Hcl Hrest _ _]. constructor.
    + exists k. exact Hq.
    + intros u Hu Hnq w Hed. destruct (decide (u = cur)) as [->|Hne].
      * destruct (Hrest w Hed) as [[]|H]. exact H.
      * eapply Hcl; eassumption.
  - pose proof Hv as [Hcur Hq Hcl Hrest Htodo Hnear].
    assert (Hed : edge routes cur w) by (apply Htodo; now left).
    assert (Hkey : is_Some (n_routes st !! w)).
    { apply (core_keys_n _ _ _ _ Hcore), routes_closed with cur, Hed. }
    cbn [visit]. unfold getitem.
    destruct Hkey as [[d|] Hw]; rewrite Hw; cbn [mbind result_bind].
    + apply (IH st cur k n); try assumption.
      constructor; try assumption.
      * intros w' Hw'. destruct (Hrest w' Hw') as [[<-|H]|H]; auto.
        right. exists d. exact Hw.
      * intros w' Hw'. apply Htodo. now right.
    + unfold has_level in Hcur. rewrite Hcur.
      cbn [mbind result_bind].
      pose proof (core_discover routes s e st cur k w Hcore Hpe Hcur Hw Hed Hnear)
        as Hcore'.
      destruct (String.eqb w e) eqn:Ewe.
      * eexists. split; [reflexivity|]. split; [exact Hcore'|].
        split; [discriminate|]. apply measure_discover with cur; assumption.
      * rewrite Hpe. apply (IH _ cur k n).
        -- exact Hcore'.
        -- reflexivity.
        -- constructor; simpl.
           ++ apply discover_keeps; assumption.
           ++ apply two_levels_discover; assumption.
           ++ intros u [du Hu] Hnq Hne w' Hed'.
              apply discover_inv in Hu as [[-> _]|[_ Hu]].
              { exfalso. apply Hnq, in_or_app. right. now left. }
              destruct (Hcl u) with (w := w') as [d' Hd']; try assumption.
              { exists du. exact Hu. }
              { intros Hin. apply Hnq, in_or_app. now left. }
              exists d'. apply discover_keeps; assumption.
           ++ intros w' Hw'. destruct (Hrest w' Hw') as [[<-|H]|[d' H]].
              { right. exists (S k). apply lookup_insert_eq. }
              { now left. }
              { right. exists d'. apply discover_keeps; assumption. }
           ++ intros w' Hw'. apply Htodo. now right.
           ++ intros v p Hp Hlen. destruct (Hnear v p Hp Hlen) as [d' H].
              exists d'. apply discover_keeps; assumption.
        -- apply measure_discover with cur; assumption.
Qed.

(** At the head of the [while] loop every city within the level of the
    first city of the queue has been discovered. *)
Lemma frontier_near st cur q k :
  core routes s e st ->
  frontier routes st ->
  queue st = cur :: q ->
  has_level st k cur ->
  forall v p, route routes s v p -> (length p <= S k)%nat -> discovered st v.
Proof.
  intros Hcore [[k0 (q1 & q2 & Hq & H1 & H2)] Hcl] Hqueue Hcur.
  assert (Hge : forall u d, In u (queue st) -> has_level st d u -> (k <= d)%nat).
  { intros u d Hin Hd. rewrite Hq in Hin, Hqueue.
    rewrite List.Forall_forall in H1, H2.
    assert (Hk : k = k0 \/ (k = S k0 /\ q1 = [])).
    { destruct q1 as [|x q1]; simpl in Hqueue.
      - right. split; [|reflexivity]. apply (has_level_fun st cur); [exact Hcur|].
        apply H2. rewrite Hqueue. now left.
      - left. injection Hqueue as -> _. apply (has_level_fun st cur); [exact Hcur|].
        apply H1. now left. }
    apply in_app_or in Hin as [Hin|Hin].
    - destruct Hk as [->|[_ ->]]; [|destruct Hin].
      rewrite (has_level_fun st u d k0 Hd (H1 u Hin)). lia.
    - rewrite (has_level_fun st u d (S k0) Hd (H2 u Hin)). lia. }
  induction 1 as [|u v p Hp IH Hed]; intros Hlen.
  - exists 0%nat. apply (core_start _ _ _ _ Hcore).
  - rewrite length_app in Hlen. simpl in Hlen.
    destruct IH as [d Hd]; [lia|].
    apply (Hcl u); [exists d; exact Hd| |exact Hed].
    intros Hin. specialize (Hge u d Hin Hd).
    destruct (core_level _ _ _ _ Hcore u d Hd) as [_ Hmin].
    specialize (Hmin p Hp). lia.
Qed.

(** The [while] loop returns within the budget. *)
Lemma bfs_spec fuel : forall st n,
  core routes s e st ->
  (path_exists st = false -> frontier routes st) ->
  measure routes st n ->
  (n < fuel)%nat ->
  exists st',
    bfs fuel routes e st = Ok st' /\
    core routes s e st' /\
    (path_exists st' = false -> frontier routes st' /\ queue st' = []) /\
    (exists n', measure routes st' n').
Proof.
  induction fuel as [|fuel IH]; intros st n Hcore Hfr Hm Hn; [lia|].
  cbn [bfs]. destruct (queue st) as [|cur q] eqn:Hq.
  { exists st. split; [reflexivity|]. split; [exact Hcore|].
    split; [|eauto]. intros H. split; [apply Hfr, H|exact Hq]. }
  destruct (path_exists st) eqn:Hpe.
  { exists st. split; [reflexivity|]. split; [exact Hcore|].
    split; [|eauto]. intros H. congruence. }
  specialize (Hfr eq_refl).
  assert (Hcur : exists k, has_level st k cur).
  { destruct Hfr as [[k0 (q1 & q2 & Hq' & H1 & H2)] _].
    rewrite Hq in Hq'. rewrite List.Forall_forall in H1, H2.
    destruct q1 as [|x q1]; simpl in Hq'.
    - exists (S k0). apply H2. rewrite <- Hq'. now left.
    - injection Hq' as -> _. exists k0. apply H1. now left. }
  destruct Hcur as [k Hcur].
  pose proof (frontier_near st cur q k Hcore Hfr Hq Hcur) as Hnear.
  set (st0 := {| n_routes := n_routes st; parents := parents st;
                 queue := q; path_exists := false |}).
  assert (Hcore0 : core routes s e st0).
  { unfold st0. rewrite <- Hpe. apply core_queue, Hcore. }
  assert (Hv0 : visiting routes s cur k (map fst (neighbours routes cur)) st0).
  { destruct Hfr as [[k0 (q1 & q2 & Hq' & H1 & H2)] Hcl].
    constructor; simpl; try assumption.
    - rewrite Hq in Hq'. pose proof H1 as H1'. pose proof H2 as H2'.
      rewrite List.Forall_forall in H1', H2'.
      destruct q1 as [|x q1]; simpl in Hq'.
      + assert (k = S k0) as ->.
        { apply (has_level_fun st cur); [exact Hcur|].
          apply H2'. rewrite <- Hq'. now left. }
        exists q, []. simpl. rewrite app_nil_r. split; [reflexivity|].
        split; [|constructor]. rewrite <- Hq' in H2.
        apply List.Forall_inv_tail in H2. exact H2.
      + injection Hq' as Hx Hqq. subst x. subst q.
        assert (k = k0) as ->.
        { apply (has_level_fun st cur); [exact Hcur|]. apply H1'. now left. }
        exists q1, q2. simpl. split; [reflexivity|].
        split; [|exact H2]. apply List.Forall_inv_tail in H1. exact H1.
    - intros u Hu Hnq Hne w Hed. apply (Hcl u); try assumption.
      rewrite Hq. intros [->|Hin]; [congruence|]. apply Hnq, Hin.
    - intros w Hw. left. exact Hw.
    - intros w Hw. exact Hw. }
  assert (Hm0 : measure routes st0 (n - 1)).
  { destruct Hm as (U & Hu & Hlen & Hlv). exists U. simpl.
    rewrite Hq in Hlen. simpl in Hlen.
    split; [exact Hu|]. split; [lia|exact Hlv]. }
  destruct (visit_spec _ st0 cur k (n - 1)%nat Hcore0 eq_refl Hv0 Hm0)
    as (st1 & Hvisit & Hcore1 & Hfr1 & Hm1).
  fold st0. rewrite Hvisit. cbn [mbind result_bind].
  apply (IH st1 (n - 1)%nat); try assumption.
  destruct Hm as (U & _ & Hlen & _). rewrite Hq in Hlen. simpl in Hlen. lia.
Qed.

End SearchLoops.

Section SearchResult.

Variable routes : routes_t.
Variables s e : city.
Hypothesis routes_closed : closed_graph routes.

(** The walk along [parents] from a city of level [d] reaches the start
    after [d] steps and lists a route backwards. *)
Lemma walk_back_spec st d : forall v fuel par path total,
  core routes s e st ->
  has_level st d v ->
  parents st !! v = Some par ->
  (d < fuel)%nat ->
  exists chain tot,
    walk_back fuel routes (parents st) par v path total = Ok (path ++ chain, tot) /\
    route routes s v (rev chain ++ [v]) /\
    length chain = d.
Proof.
  induction d as [|d IH]; intros v fuel par path total Hcore Hv Hpar Hfuel;
    (destruct fuel as [|fuel]; [lia|]);
    pose proof (core_parent _ _ _ _ Hcore v _ Hv) as Hp; cbn [walk_back].
  - rewrite Hp in Hpar. injection Hpar as <-.
    exists [], total. rewrite app_nil_r. split; [reflexivity|].
    split; [|reflexivity]. simpl.
    destruct (core_level _ _ _ _ Hcore v _ Hv) as [(p & Hroute & Hlen) _].
    rewrite (route_single routes s v p Hroute Hlen). constructor.
  - destruct Hp as (u & Hu & Hed & Hlu).
    rewrite Hu in Hpar. injection Hpar as <-.
    destruct (edge_duration routes u v Hed) as [du ->].
    cbn [mbind result_bind].
    assert (Hpu : exists pu, parents st !! u = Some pu).
    { pose proof (core_parent _ _ _ _ Hcore u _ Hlu) as H.
      destruct d; [eauto|]. destruct H as (x & -> & _). eauto. }
    destruct Hpu as [pu Hpu]. unfold getitem. rewrite Hpu.
    cbn [mbind result_bind].
    destruct (IH u fuel pu (path ++ [u]) (total + du) Hcore Hlu Hpu)
      as (chain & tot & Hwalk & Hroute & Hlen); [lia|].
    exists (u :: chain), tot. rewrite Hwalk.
    split; [now rewrite <- app_assoc|]. split; [|simpl; lia].
    simpl. econstructor; eassumption.
Qed.

(** When the queue runs empty, every city that can be reached has been
    discovered. *)
Lemma frontier_empty st v p :
  core routes s e st -> frontier routes st -> queue st = [] ->
  route routes s v p -> discovered st v.
Proof.
  intros Hcore [_ Hcl] Hq. induction 1 as [|u v p _ IH Hed].
  - exists 0%nat. apply (core_start _ _ _ _ Hcore).
  - apply (Hcl u); [exact IH| |exact Hed]. rewrite Hq. simpl. tauto.
Qed.

(** The two outcomes of the search between two keys of [routes]. *)
Lemma search_cases :
  has_key routes s = true -> has_key routes e = true ->
  (exists p tot,
     search routes s e = Ok (Some (p, tot)) /\
     e <> s /\ route routes s e p /\
     forall p', route routes s e p' -> (length p <= length p')%nat)
  \/ (search routes s e = Ok None /\ (e = s \/ ~ reachable routes s e)).
Proof.
  intros Hs He. unfold search. rewrite Hs, He. simpl negb. cbn [orb].
  destruct (bfs_spec routes s e routes_closed (budget routes)
              (initial routes s) (length routes))
    as (st & -> & Hcore & Hfr & [n (U & _ & _ & Hbound)]).
  { apply initial_core, Hs. }
  { intros _. apply initial_frontier. }
  { apply initial_measure, Hs. }
  { unfold budget. lia. }
  cbn [mbind result_bind].
  pose proof (core_found _ _ _ _ Hcore) as Hfound.
  destruct (path_exists st); simpl negb; cbn match.
  - left. destruct Hfound as [d Hd].
    destruct (core_parent _ _ _ _ Hcore e _ Hd) as (u & Hu & _).
    unfold getitem. rewrite Hu. cbn [mbind result_bind].
    destruct (walk_back_spec st (S d) e (budget routes) (Some u) [e] 0
                Hcore Hd Hu) as (chain & tot & -> & Hroute & Hlen).
    { specialize (Hbound e _ Hd). unfold budget. lia. }
    cbn [mbind result_bind].
    exists (rev ([e] ++ chain)), tot. split; [reflexivity|].
    split.
    { intros ->. pose proof (core_start _ _ _ _ Hcore) as H0.
      pose proof (has_level_fun st s _ _ H0 Hd). discriminate. }
    rewrite rev_app_distr. simpl rev at 2. split; [exact Hroute|].
    intros p' Hp'. destruct (core_level _ _ _ _ Hcore e _ Hd) as [_ Hmin].
    specialize (Hmin p' Hp'). rewrite length_app, length_rev. simpl. lia.
  - right. split; [reflexivity|].
    destruct (decide (e = s)) as [Heq|Hne]; [now left|]. right.
    intros [p Hp]. destruct (Hfr eq_refl) as [Hfrontier Hq].
    apply (Hfound Hne). eapply frontier_empty; eassumption.
Qed.

End SearchResult.

Section SearchClaims.

Lemma abc_routes_closed : closed_graph abc_routes.
Proof.
  intros u v H. unfold edge, neighbours, abc_routes in H. simpl in H.
  destruct (String.eqb u "A"); [simpl in H; destruct H as [<-|[]]; reflexivity|].
  destruct (String.eqb u "B");
    [simpl in H; destruct H as [<-|[<-|[]]]; reflexivity|].
  destruct (String.eqb u "C"); [simpl in H; destruct H as [<-|[]]; reflexivity|].
  destruct H.
Qed.

(** A is a key and is reached from itself by the route of zero hops, yet
    the search from A to A finds nothing. *)
Lemma same_city_not_found :
  has_key abc_routes "A" = true /\
  route abc_routes "A" "A" ["A"%string] /\
  find_path abc_routes "A" "A" = Ok None.
Proof. split; [reflexivity|]. split; [constructor|reflexivity]. Qed.

(** C3 (as the code has it).  In a network whose neighbours are all keys:
    a missing city gives no path; between two different keys with the end
    reachable, the search returns a route from start to end that has the
    least number of cities, hence of hops, among all routes; when the end
    is the start itself or cannot be reached, it gives no path. *)
Theorem find_path_shortest (routes : routes_t) (s e : city) :
  closed_graph routes ->
  (has_key routes s = false \/ has_key routes e = false ->
     find_path routes s e = Ok None) /\
  (has_key routes s = true -> has_key routes e = true ->
   s <> e -> reachable routes s e ->
     exists p, find_path routes s e = Ok (Some p) /\
               route routes s e p /\
               forall p', route routes s e p' -> (length p <= length p')%nat) /\
  (has_key routes s = true -> has_key routes e = true ->
   s = e \/ ~ reachable routes s e ->
     find_path routes s e = Ok None).
Proof.
  intros Hclosed. split; [|split].
  - intros H. unfold find_path, search.
    destruct H as [-> | ->]; simpl; [reflexivity|].
    rewrite orb_true_r. reflexivity.
  - intros Hs He Hne Hreach. unfold find_path.
    destruct (search_cases routes s e Hclosed Hs He)
      as [(p & tot & -> & _ & Hroute & Hmin)|[_ [->|Hno]]].
    + exists p. auto.
    + congruence.
    + contradiction.
  - intros Hs He Hor. unfold find_path.
    destruct (search_cases routes s e Hclosed Hs He)
      as [(p & tot & -> & Hne & Hroute & Hmin)|[-> _]]; [|reflexivity].
    destruct Hor as [->|Hno]; [congruence|].
    exfalso. apply Hno. exists p. exact Hroute.
Qed.

Lemma abc_route : route abc_routes "A" "C" ["A"; "B"; "C"]%string.
Proof.
  apply (route_step abc_routes "A" "B" "C" ["A"; "B"]%string).
  - apply (route_step abc_routes "A" "A" "B" ["A"%string]); [constructor|].
    simpl. now left.
  - simpl. right. now left.
Qed.

Lemma find_path_shortest_witness :
  exists p, find_path abc_routes "A" "C" = Ok (Some p) /\
            route abc_routes "A" "C" p /\
            forall p', route abc_routes "A" "C" p' -> (length p <= length p')%nat.
Proof.
  destruct (find_path_shortest abc_routes "A" "C" abc_routes_closed)
    as (_ & H & _).
  apply H.
  - reflexivity.
  - reflexivity.
  - discriminate.
  - exists ["A"; "B"; "C"]%string. exact abc_route.
Defined.

(** The search from B to B gives no path, not the path of B alone. *)
Lemma same_city_no_path :
  has_key abc_routes "B" = true /\
  find_path abc_routes "B" "B" <> Ok (Some ["B"%string]) /\
  query abc_routes abc_flights "B" "B" = Ok Unreachable.
Proof. split; [reflexivity|]. split; [discriminate|reflexivity]. Qed.

(** C8 (as the code has it).  From a key of the network to itself the
    search gives no path, and the query is answered as "no route" without
    looking for flights. *)
Theorem same_city_unreachable
    (routes : routes_t) (flights : list flight) (s : city) :
  closed_graph routes ->
  has_key routes s = true ->
  find_path routes s s = Ok None /\
  query routes flights s s = Ok Unreachable.
Proof.
  intros Hclosed Hs. unfold find_path, query.
  destruct (search_cases routes s s Hclosed Hs Hs)
    as [(p & tot & _ & Hne & _)|[-> _]]; [congruence|].
  split; reflexivity.
Qed.

Lemma same_city_unreachable_witness :
  find_path abc_routes "C" "C" = Ok None /\
  query abc_routes abc_flights "C" "C" = Ok Unreachable.
Proof.
  apply (same_city_unreachable abc_routes abc_flights "C").
  - exact abc_routes_closed.
  - reflexivity.
Defined.

End SearchClaims.

(** * Further properties *)

(** ** The time helpers *)

Section TimeHelpers.

(** The hour and the minute are always those of a clock, for any
    timedelta, negative ones included; together they are the [.seconds]
    field cut to a whole minute.  (The test [hours > 24] of the source never
    fires.) *)
Theorem hours_minutes_of_a_clock (t : timedelta) :
  exists day hours minutes,
    timedelta_to_day_hour_minutes t = (day, hours, minutes) /\
    0 <= hours <= 23 /\ 0 <= minutes <= 59 /\
    hours = td_seconds t / 3600 /\
    td 0 hours minutes = td_seconds t - td_seconds t mod 60.
Proof.
  pose proof (day_hour_minutes_spec t) as H.
  assert (Hh : snd (fst (timedelta_to_day_hour_minutes t)) = td_seconds t / 3600).
  { unfold timedelta_to_day_hour_minutes. simpl.
    assert (Hs : 0 <= td_seconds t < 86400) by (apply Z.mod_pos_bound; lia).
    assert (td_seconds t / 3600 <= 23).
    { apply Z.lt_succ_r, Z.div_lt_upper_bound; lia. }
    replace (24 <? td_seconds t / 3600) with false
      by (symmetry; apply Z.ltb_ge; lia).
    reflexivity. }
  destruct (timedelta_to_day_hour_minutes t) as [[day hours] minutes].
  simpl in Hh. destruct H as (_ & H1 & H2 & H3).
  exists day, hours, minutes. auto.
Qed.

(** For a day count from 1 on that is 7 or no multiple of 7, the weekday is
    in 1..7 and differs from the day count by whole weeks. *)
Theorem weekday_in_range (t : timedelta) :
  1 <= td_days t ->
  td_days t <= 7 \/ td_days t mod 7 <> 0 ->
  exists day hours minutes,
    timedelta_to_day_hour_minutes t = (day, hours, minutes) /\
    1 <= day <= 7 /\ (td_days t - day) mod 7 = 0.
Proof.
  intros H1 H7. pose proof (day_hour_minutes_spec t) as H.
  destruct (timedelta_to_day_hour_minutes t) as [[day hours] minutes].
  destruct H as (Hday & _). exists day, hours, minutes.
  split; [reflexivity|].
  destruct (7 <? td_days t) eqn:E.
  - apply Z.ltb_lt in E.
    pose proof (Z.mod_pos_bound (td_days t) 7 ltac:(lia)).
    pose proof (Z.div_mod (td_days t) 7 ltac:(lia)) as Hdm.
    split; [lia|]. subst day.
    replace (td_days t - td_days t mod 7) with (td_days t / 7 * 7) by lia.
    apply Z.mod_mul. lia.
  - apply Z.ltb_ge in E. subst day. split; [lia|].
    rewrite Z.sub_diag. reflexivity.
Qed.

Lemma weekday_in_range_witness :
  exists day hours minutes,
    timedelta_to_day_hour_minutes (td 9 22 15) = (day, hours, minutes) /\
    1 <= day <= 7 /\ (td_days (td 9 22 15) - day) mod 7 = 0.
Proof.
  apply (weekday_in_range (td 9 22 15)).
  - vm_compute. discriminate.
  - right. vm_compute. discriminate.
Defined.

(** The formatted time shows the time of day only: whole days are dropped,
    so a duration of a day or more is shown as less than 24 hours. *)
Theorem formatted_string_drops_days (t k : Z) :
  timedelta_to_formatted_string (t + td k 0 0) = timedelta_to_formatted_string t.
Proof.
  unfold timedelta_to_formatted_string, td_seconds, td.
  replace (t + (k * 86400 + 0 * 3600 + 0 * 60)) with (t + k * 86400) by lia.
  rewrite Z.mod_add by lia. reflexivity.
Qed.

Lemma digit_inj (a b : Z) :
  0 <= a < 10 -> 0 <= b < 10 -> digit a = digit b -> a = b.
Proof.
  intros Ha Hb H. unfold digit in H.
  apply (f_equal nat_of_ascii) in H.
  rewrite !nat_ascii_embedding in H by lia. lia.
Qed.

Lemma fmt02_inj (a b : Z) :
  0 <= a < 100 -> 0 <= b < 100 -> fmt02 a = fmt02 b -> a = b.
Proof.
  intros Ha Hb H. unfold fmt02 in H. injection H as H1 H2.
  assert (Hq : forall x, 0 <= x < 100 -> 0 <= x / 10 < 10 /\ 0 <= x mod 10 < 10).
  { intros x Hx. split; [|apply Z.mod_pos_bound; lia].
    split; [apply Z.div_pos; lia|apply Z.div_lt_upper_bound; lia]. }
  destruct (Hq a Ha) as [Ha1 Ha2]. destruct (Hq b Hb) as [Hb1 Hb2].
  apply digit_inj in H1; [|assumption..].
  apply digit_inj in H2; [|assumption..].
  rewrite (Z.div_mod a 10), (Z.div_mod b 10) by lia. lia.
Qed.

Lemma clock_text_inj (a b c d : Z) :
  (fmt02 a ++ ":" ++ fmt02 b)%string = (fmt02 c ++ ":" ++ fmt02 d)%string ->
  fmt02 a = fmt02 c /\ fmt02 b = fmt02 d.
Proof.
  unfold fmt02. intros H. cbv [String.append] in H.
  injection H as H1 H2 H3 H4. rewrite H1, H2, H3, H4. split; reflexivity.
Qed.

(** Two times of day of whole minutes that are shown alike are the same. *)
Theorem formatted_string_injective (t1 t2 : timedelta) :
  0 <= t1 < 86400 -> 0 <= t2 < 86400 ->
  t1 mod 60 = 0 -> t2 mod 60 = 0 ->
  timedelta_to_formatted_string t1 = timedelta_to_formatted_string t2 ->
  t1 = t2.
Proof.
  intros H1 H2 Hm1 Hm2 H.
  unfold timedelta_to_formatted_string, td_seconds in H.
  rewrite (Z.mod_small t1), (Z.mod_small t2) in H by lia.
  assert (Hr : forall t, 0 <= t < 86400 ->
            0 <= t / 3600 < 100 /\ 0 <= t / 60 mod 60 < 100).
  { intros t Ht. split.
    - split; [apply Z.div_pos; lia|apply Z.div_lt_upper_bound; lia].
    - pose proof (Z.mod_pos_bound (t / 60) 60). lia. }
  destruct (Hr t1 H1) as [Ha1 Hb1]. destruct (Hr t2 H2) as [Ha2 Hb2].
  apply clock_text_inj in H as [Hh Hm].
  apply fmt02_inj in Hh; [|assumption..].
  apply fmt02_inj in Hm; [|assumption..].
  pose proof (Z.div_mod t1 60 ltac:(lia)).
  pose proof (Z.div_mod t2 60 ltac:(lia)).
  pose proof (Z.div_mod (t1 / 60) 60 ltac:(lia)).
  pose proof (Z.div_mod (t2 / 60) 60 ltac:(lia)).
  pose proof (Z.div_div t1 60 60 ltac:(lia) ltac:(lia)) as Hdd1.
  pose proof (Z.div_div t2 60 60 ltac:(lia) ltac:(lia)) as Hdd2.
  change (60 * 60) with 3600 in Hdd1, Hdd2. lia.
Qed.

Lemma formatted_string_injective_witness : td 0 8 30 = 30600.
Proof.
  apply (formatted_string_injective (td 0 8 30) 30600);
    vm_compute; try reflexivity; split; congruence.
Defined.

End TimeHelpers.

(** ** More on the connecting flight *)

Section ResolverMore.

Variable routes : routes_t.
Variable flights : list flight.

(** What a successful call returns: a row of the pair, chosen either among
    the rows kept by the filter or, when none is kept, among all rows with
    seven days more. *)
Lemma find_nearest_flight_inv origin destination time_pos total_price c t p
    day hours minutes :
  timedelta_to_day_hour_minutes (time_pos + td 0 3 0) = (day, hours, minutes) ->
  find_nearest_flight routes flights origin destination time_pos total_price
    = Ok (c, t, p) ->
  exists r d day_name (wrap : bool),
    In r (pair_options flights origin destination) /\
    duration routes origin destination = Ok d /\
    week_days (week_day r) = Ok day_name /\
    c = (" " ++ origin ++ " " ++ day_name ++ " "
             ++ timedelta_to_formatted_string (time r))%string /\
    p = total_price + price r /\
    t = time_pos + td 0 3 0
        + (td (week_day r) 0 0 + time r - td day hours minutes
           + (if wrap then td 7 0 0 else 0)) + d /\
    (if wrap
     then List.filter (in_same_week day hours minutes)
            (pair_options flights origin destination) = []
     else in_same_week day hours minutes r = true).
Proof.
  intros Hn. unfold find_nearest_flight. rewrite Hn.
  set (options := pair_options flights origin destination).
  destruct (List.filter (in_same_week day hours minutes) options)
    as [|r sw] eqn:Esw; simpl.
  - destruct options as [|r rest] eqn:Eo; [discriminate|].
    destruct (week_days (week_day r)) as [name|] eqn:En;
      cbn [mbind result_bind]; [|discriminate].
    destruct (duration routes origin destination) as [d|];
      cbn [mbind result_bind]; [|discriminate].
    intros [= <- <- <-]. exists r, d, name, true.
    repeat split; try reflexivity; [now left|exact En].
  - assert (Hr : In r (List.filter (in_same_week day hours minutes) options))
      by (rewrite Esw; now left).
    apply List.filter_In in Hr as [Hr1 Hr2].
    destruct (week_days (week_day r)) as [name|] eqn:En;
      cbn [mbind result_bind]; [|discriminate].
    destruct (duration routes origin destination) as [d|];
      cbn [mbind result_bind]; [|discriminate].
    intros [= <- <- <-]. exists r, d, name, false.
    repeat split; try reflexivity; try assumption. lia.
Qed.

(** The connection within the week.  When some row of the pair has a
    weekday not before [day] and, as well, a time of day not before
    [hours]:[minutes] (the weekday and the time that
    [timedelta_to_day_hour_minutes] returns for the arrival plus three
    hours), then in a sorted, well-formed timetable the connection is the
    earliest of the week among those rows; no week is added; the passenger
    leaves at or after the earliest allowed instant; and, when [day] is a
    weekday from 1 on, less than seven days after it and in the same 7-day
    cycle. *)
Theorem same_week_earliest_kept
    (origin destination : city) (time_pos : timedelta) (total_price : Z)
    (day hours minutes : Z) (r' : flight) (d : timedelta) :
  wf_timetable flights ->
  sorted_timetable flights ->
  timedelta_to_day_hour_minutes (time_pos + td 0 3 0) = (day, hours, minutes) ->
  In r' (pair_options flights origin destination) ->
  day <= week_day r' -> td 0 hours minutes <= time r' ->
  duration routes origin destination = Ok d ->
  exists r day_name departure,
    In r (pair_options flights origin destination) /\
    day <= week_day r /\ td 0 hours minutes <= time r /\
    (forall x, In x (pair_options flights origin destination) ->
       day <= week_day x -> td 0 hours minutes <= time x ->
       stamp_le (week_day r) (time r) (week_day x) (time x)) /\
    week_days (week_day r) = Ok day_name /\
    find_nearest_flight routes flights origin destination time_pos total_price
      = Ok ((" " ++ origin ++ " " ++ day_name ++ " "
                ++ timedelta_to_formatted_string (time r))%string,
            departure + d, total_price + price r) /\
    departure = time_pos + td 0 3 0
                + (td (week_day r) 0 0 + time r - td day hours minutes) /\
    time_pos + td 0 3 0 <= departure /\
    (1 <= day ->
     departure < time_pos + td 0 3 0 + td 7 0 0 /\
     cycle departure = cycle (time_pos + td 0 3 0)).
Proof.
  intros Hwf Hs Hn Hr' Hd' Ht' Hdur.
  set (options := pair_options flights origin destination) in *.
  assert (Hkeep : forall x, In x (List.filter (in_same_week day hours minutes) options)
                    <-> In x options /\ day <= week_day x /\ td 0 hours minutes <= time x).
  { intros x. rewrite List.filter_In. unfold in_same_week.
    rewrite andb_true_iff, !Z.leb_le. tauto. }
  destruct (List.filter (in_same_week day hours minutes) options)
    as [|r kept] eqn:Ek.
  { exfalso. apply (proj2 (Hkeep r')). auto. }
  assert (Hr : In r options /\ day <= week_day r /\ td 0 hours minutes <= time r)
    by (apply Hkeep; now left).
  destruct Hr as (Hr & Hrd & Hrt).
  assert (Hwfr : wf_row r) by (eapply wf_pair_options; eassumption).
  destruct (week_days_wf r Hwfr) as [name Hname].
  exists r, name. eexists.
  split; [exact Hr|]. split; [exact Hrd|]. split; [exact Hrt|].
  split.
  { intros x Hx Hxd Hxt.
    assert (Hxk : In x (r :: kept)) by (apply Hkeep; auto).
    assert (Hsorted : StronglySorted (fun r1 r2 => row_leb r1 r2 = true) (r :: kept)).
    { rewrite <- Ek. apply filter_strongly_sorted.
      apply filter_strongly_sorted. exact Hs. }
    destruct Hxk as [<-|Hxk]; [unfold stamp_le; lia|].
    apply StronglySorted_inv in Hsorted as [_ Hall].
    rewrite List.Forall_forall in Hall.
    apply (row_leb_same_pair origin destination).
    - apply List.filter_In in Hr. apply Hr.
    - apply List.filter_In in Hx. apply Hx.
    - apply Hall, Hxk. }
  split; [exact Hname|].
  split.
  { unfold find_nearest_flight. rewrite Hn. fold options. rewrite Ek. simpl.
    rewrite Hname. cbn [mbind result_bind]. rewrite Hdur. reflexivity. }
  split; [reflexivity|].
  pose proof (day_hour_minutes_spec (time_pos + td 0 3 0)) as Hspec.
  rewrite Hn in Hspec. destruct Hspec as (Hday & Hh & Hm & Hhm).
  destruct Hwfr as (Hwd & Htime & Ht60).
  set (T := time_pos + td 0 3 0) in *.
  assert (HT : T = 86400 * td_days T + td_seconds T) by (apply Z.div_mod; lia).
  assert (Hsec : 0 <= td_seconds T < 86400) by (apply Z.mod_pos_bound; lia).
  assert (Hs60 : 0 <= td_seconds T mod 60 < 60) by (apply Z.mod_pos_bound; lia).
  assert (Htime' : time r <= 86340).
  { pose proof (Z.div_mod (time r) 60 ltac:(lia)). lia. }
  split; [unfold td in *; lia|].
  intros Hday1. split; [unfold td in *; lia|].
  assert (Hq : day <= 7 /\ exists q, td_days T = 7 * q + day).
  { destruct (7 <? td_days T) eqn:E.
    - apply Z.ltb_lt in E.
      pose proof (Z.mod_pos_bound (td_days T) 7 ltac:(lia)).
      pose proof (Z.div_mod (td_days T) 7 ltac:(lia)).
      split; [lia|]. exists (td_days T / 7). lia.
    - apply Z.ltb_ge in E. split; [lia|]. exists 0. lia. }
  destruct Hq as (Hday7 & q & HDq).
  unfold cycle.
  assert (Hdep : td_days (T + (td (week_day r) 0 0 + time r - td day hours minutes))
                 = td_days T - day + week_day r).
  { unfold td_days at 1. symmetry.
    apply (Z.div_unique _ _ _ (time r + td_seconds T mod 60)); [lia|].
    unfold td in *. lia. }
  rewrite Hdep, HDq.
  replace (7 * q + day - day + week_day r - 1) with (week_day r - 1 + q * 7) by lia.
  replace (7 * q + day - 1) with (day - 1 + q * 7) by lia.
  rewrite !Z.div_add by lia.
  rewrite !Z.div_small by lia. reflexivity.
Qed.

End ResolverMore.

(** Arrival on Monday 10:00: of the two Monday flights from B to C the one
    of 20:00 is the earliest not before 13:00. *)
Lemma same_week_earliest_kept_witness :
  exists r day_name departure,
    In r (pair_options abc_flights "B" "C") /\
    1 <= week_day r /\ td 0 13 0 <= time r /\
    (forall x, In x (pair_options abc_flights "B" "C") ->
       1 <= week_day x -> td 0 13 0 <= time x ->
       stamp_le (week_day r) (time r) (week_day x) (time x)) /\
    week_days (week_day r) = Ok day_name /\
    find_nearest_flight abc_routes abc_flights "B" "C" (td 1 10 0) 100
      = Ok ((" " ++ "B" ++ " " ++ day_name ++ " "
                ++ timedelta_to_formatted_string (time r))%string,
            departure + td 0 3 0, 100 + price r) /\
    departure = td 1 10 0 + td 0 3 0
                + (td (week_day r) 0 0 + time r - td 1 13 0) /\
    td 1 10 0 + td 0 3 0 <= departure /\
    (1 <= 1 ->
     departure < td 1 10 0 + td 0 3 0 + td 7 0 0 /\
     cycle departure = cycle (td 1 10 0 + td 0 3 0)).
Proof.
  apply (same_week_earliest_kept abc_routes abc_flights "B" "C" (td 1 10 0) 100
           1 13 0 (mk_flight "B" "C" 1 20 0 140) (td 0 3 0)).
  - exact abc_flights_wf.
  - exact abc_flights_sorted.
  - reflexivity.
  - right. left. reflexivity.
  - vm_compute. congruence.
  - vm_compute. congruence.
  - reflexivity.
Defined.

Section ResolverSchedule.

Variable routes : routes_t.
Variable flights : list flight.

(** A connection is always a row of the requested pair; its price is added
    to the running price; it leaves three hours or more after the arrival;
    and, for an arrival on a whole minute, it leaves at the weekday and time
    of that row, up to whole weeks. *)
Theorem connection_on_schedule
    (origin destination : city) (time_pos : timedelta) (total_price : Z)
    (c : string) (t : timedelta) (p : Z) :
  wf_timetable flights ->
  time_pos mod 60 = 0 ->
  find_nearest_flight routes flights origin destination time_pos total_price
    = Ok (c, t, p) ->
  exists r d,
    In r flights /\ city_from r = origin /\ city_to r = destination /\
    duration routes origin destination = Ok d /\
    p = total_price + price r /\
    time_pos + td 0 3 0 <= t - d /\
    (t - d - (td (week_day r) 0 0 + time r)) mod td 7 0 0 = 0.
Proof.
  intros Hwf Hmin H.
  pose proof (find_nearest_flight_later routes flights _ _ _ _ _ _ _ Hwf H)
    as (d' & Hd' & Hlater).
  pose proof (day_hour_minutes_spec (time_pos + td 0 3 0)) as Hspec.
  destruct (timedelta_to_day_hour_minutes (time_pos + td 0 3 0))
    as [[day hours] minutes] eqn:Hn.
  destruct Hspec as (Hday & _ & _ & Hhm).
  destruct (find_nearest_flight_inv routes flights _ _ _ _ _ _ _ _ _ _ Hn H)
    as (r & d & name & wrap & Hr & Hd & _ & _ & Hp & Ht & _).
  rewrite Hd in Hd'. injection Hd' as <-.
  exists r, d. apply List.filter_In in Hr as [Hin Hpair].
  unfold on_pair in Hpair. apply andb_true_iff in Hpair as [Hf Hto].
  apply String.eqb_eq in Hf, Hto.
  split; [exact Hin|]. split; [exact Hf|]. split; [exact Hto|].
  split; [exact Hd|]. split; [exact Hp|]. split; [lia|].
  set (T := time_pos + td 0 3 0) in *.
  assert (HT : T = 86400 * td_days T + td_seconds T) by (apply Z.div_mod; lia).
  assert (Hs60 : td_seconds T mod 60 = 0).
  { unfold td_seconds.
    pose proof (Z.div_mod T 86400 ltac:(lia)) as H1.
    pose proof (Z.div_mod T 60 ltac:(lia)) as H2.
    pose proof (Z.div_mod (T mod 86400) 60 ltac:(lia)) as H3.
    pose proof (Z.mod_pos_bound (T mod 86400) 60 ltac:(lia)).
    pose proof (Z.mod_pos_bound T 60 ltac:(lia)).
    assert (HT60 : T mod 60 = 0).
    { unfold T, td. rewrite <- Zplus_mod_idemp_l, Hmin. reflexivity. }
    assert (Hdiv : (T mod 86400 mod 60 - T mod 60) mod 60 = 0).
    { replace (T mod 86400 mod 60 - T mod 60)
        with ((T / 60 - 1440 * (T / 86400) - T mod 86400 / 60) * 60) by lia.
      apply Z.mod_mul. lia. }
    rewrite HT60, Z.sub_0_r, Z.mod_mod in Hdiv by lia. exact Hdiv. }
  assert (Hweeks : exists q, td_days T - day = q * 7).
  { destruct (7 <? td_days T); subst day.
    - exists (td_days T / 7).
      pose proof (Z.div_mod (td_days T) 7 ltac:(lia)). lia.
    - exists 0. lia. }
  destruct Hweeks as [q Hq].
  replace (t - d - (td (week_day r) 0 0 + time r))
    with ((q + (if wrap then 1 else 0)) * td 7 0 0)
    by (destruct wrap; unfold td in *; lia).
  apply Z.mod_mul. unfold td. lia.
Qed.

(** How a call fails: [IndexError] exactly when the pair has no row in the
    timetable; any other failure is a [KeyError] (a weekday outside 1..7 in
    the chosen row, or no entry [routes[origin][destination]]). *)
Theorem find_nearest_flight_failures
    (origin destination : city) (time_pos : timedelta) (total_price : Z) :
  (find_nearest_flight routes flights origin destination time_pos total_price
     = Err IndexError
   <-> pair_options flights origin destination = []) /\
  (forall e,
     find_nearest_flight routes flights origin destination time_pos total_price
       = Err e -> e = IndexError \/ e = KeyError).
Proof.
  assert (Hcases :
    pair_options flights origin destination <> [] ->
    (exists v, find_nearest_flight routes flights origin destination
                 time_pos total_price = Ok v) \/
    find_nearest_flight routes flights origin destination time_pos total_price
      = Err KeyError).
  { intros Hne. unfold find_nearest_flight.
    destruct (timedelta_to_day_hour_minutes (time_pos + td 0 3 0))
      as [[day hours] minutes].
    set (options := pair_options flights origin destination) in *.
    destruct (List.filter (in_same_week day hours minutes) options) as [|r sw];
      simpl.
    - destruct options as [|r rest]; [congruence|].
      unfold week_days.
      destruct (week_day r) as [|[[[]|[]|]|[[]|[]|]|]|];
        cbn [mbind result_bind]; auto;
        unfold duration; destruct (assoc destination (neighbours routes origin));
        cbn [mbind result_bind]; eauto.
    - unfold week_days.
      destruct (week_day r) as [|[[[]|[]|]|[[]|[]|]|]|];
        cbn [mbind result_bind]; auto;
        unfold duration; destruct (assoc destination (neighbours routes origin));
        cbn [mbind result_bind]; eauto. }
  split.
  - split.
    + intros H. destruct (pair_options flights origin destination) eqn:E;
        [reflexivity|].
      destruct Hcases as [[v Hv]|Hk]; [discriminate| |]; congruence.
    + apply find_nearest_flight_none.
  - intros e H. destruct (pair_options flights origin destination) eqn:E.
    + rewrite find_nearest_flight_none in H by exact E. left. congruence.
    + destruct Hcases as [[v Hv]|Hk]; [discriminate| |]; right; congruence.
Qed.

End ResolverSchedule.

Lemma connection_on_schedule_witness :
  exists r d,
    In r abc_flights /\ city_from r = "B"%string /\ city_to r = "C"%string /\
    duration abc_routes "B" "C" = Ok d /\
    240 = 100 + price r /\
    td 1 10 0 + td 0 3 0 <= td 1 23 0 - d /\
    (td 1 23 0 - d - (td (week_day r) 0 0 + time r)) mod td 7 0 0 = 0.
Proof.
  apply (connection_on_schedule abc_routes abc_flights "B" "C" (td 1 10 0) 100
           " B Понедельник 20:00"%string).
  - exact abc_flights_wf.
  - reflexivity.
  - reflexivity.
Defined.

(** ** More on the itineraries *)

Section AssemblerMore.

Variable routes : routes_t.
Variable flights : list flight.

Lemma legs_cons (a b : city) (rest : list city) :
  legs (a :: b :: rest) = (a, b) :: legs (b :: rest).
Proof. reflexivity. Qed.

Lemma pair_options_flies (a b : city) (r : flight) :
  In r (pair_options flights a b) -> flies flights (a, b) r.
Proof.
  intros H. apply List.filter_In in H as [Hin Hp].
  unfold on_pair in Hp. apply andb_true_iff in Hp as [H1 H2].
  apply String.eqb_eq in H1, H2. split; [exact Hin|]. simpl. auto.
Qed.

(** Three hours and a flight more on the clock for each remaining leg. *)
Lemma connect_layovers city_to rest text t p text' t' p' :
  wf_timetable flights ->
  connect routes flights city_to rest text t p = Ok (text', t', p') ->
  exists air,
    airborne_time routes (city_to :: rest) = Ok air /\
    t + air + td 0 3 0 * Z.of_nat (length rest) <= t'.
Proof.
  intros Hwf. revert city_to text t p.
  induction rest as [|next rest IH]; intros city_to text t p.
  - simpl. intros [= <- <- <-]. exists 0. split; [reflexivity|lia].
  - cbn [connect].
    destruct (find_nearest_flight routes flights city_to next t p)
      as [[[c t1] p1]|] eqn:E; cbn [mbind result_bind]; [|discriminate].
    intros H. apply IH in H as (air & Hair & Hle).
    pose proof (find_nearest_flight_later routes flights _ _ _ _ _ _ _ Hwf E)
      as (d & Hd & Hlater).
    exists (d + air). split.
    + rewrite airborne_time_cons, Hd. cbn [mbind result_bind].
      rewrite Hair. reflexivity.
    + cbn [length]. unfold td in *. lia.
Qed.

(** The rows chosen for the remaining legs, without any assumption on
    the timetable. *)
Lemma connect_rows city_to rest text t p text' t' p' :
  connect routes flights city_to rest text t p = Ok (text', t', p') ->
  exists rows,
    Forall2 (flies flights) (legs (city_to :: rest)) rows /\
    p' = p + total_price_of rows.
Proof.
  revert city_to text t p.
  induction rest as [|next rest IH]; intros city_to text t p.
  - simpl. intros [= <- <- <-]. exists []. unfold total_price_of. simpl.
    split; [constructor|lia].
  - cbn [connect].
    destruct (find_nearest_flight routes flights city_to next t p)
      as [[[c t1] p1]|] eqn:E; cbn [mbind result_bind]; [|discriminate].
    intros H. apply IH in H as (rows & Hrows & Hp).
    destruct (timedelta_to_day_hour_minutes (t + td 0 3 0))
      as [[day hours] minutes] eqn:Hn.
    destruct (find_nearest_flight_inv routes flights _ _ _ _ _ _ _ _ _ _ Hn E)
      as (r & d' & _ & _ & Hr & _ & _ & _ & Hp1 & _).
    exists (r :: rows). rewrite legs_cons.
    split; [constructor; [apply pair_options_flies, Hr|exact Hrows]|].
    unfold total_price_of in *. simpl. lia.
Qed.

(** Every option waits three hours or more at each change: its travel time
    is at least the time on board plus three hours per connection. *)
Theorem layovers_in_travel_time
    (c0 c1 : city) (rest : list city) (opts : list itinerary) :
  wf_timetable flights ->
  find_flights routes flights (c0 :: c1 :: rest) = Ok opts ->
  Forall (fun o => exists air,
            airborne_time routes (c0 :: c1 :: rest) = Ok air /\
            air + td 0 3 0 * Z.of_nat (length rest) <= travel_time o) opts.
Proof.
  intros Hwf H. unfold find_flights in H. apply for_each_ok in H.
  induction H as [|r o rs os Hro _ IH]; constructor; [|exact IH].
  unfold start_option in Hro.
  destruct (week_days (week_day r)) as [name|]; cbn [mbind result_bind] in Hro;
    [|discriminate].
  destruct (duration routes c0 c1) as [d|] eqn:Hd; cbn [mbind result_bind] in Hro;
    [|discriminate].
  destruct (connect _ _ _ _ _ _ _) as [[[text' t'] p']|] eqn:Hc;
    cbn [mbind result_bind] in Hro; [|discriminate].
  injection Hro as <-. cbn [travel_time].
  apply connect_layovers in Hc as (air & Hair & Hle); [|exact Hwf].
  exists (d + air). split; [|lia].
  rewrite airborne_time_cons, Hd. cbn [mbind result_bind]. rewrite Hair.
  reflexivity.
Qed.

(** The price of an option is the sum of the prices of one timetable row
    per leg of the path, each row flying that leg. *)
Theorem price_is_sum_of_legs
    (c0 c1 : city) (rest : list city) (opts : list itinerary) :
  find_flights routes flights (c0 :: c1 :: rest) = Ok opts ->
  Forall (fun o => exists rows,
            Forall2 (flies flights) (legs (c0 :: c1 :: rest)) rows /\
            option_price o = total_price_of rows) opts.
Proof.
  intros H. unfold find_flights in H.
  assert (Hin : forall r, In r (pair_options flights c0 c1) ->
                          flies flights (c0, c1) r)
    by (intros r; apply pair_options_flies).
  apply for_each_ok in H.
  induction H as [|r o rs os Hro _ IH]; constructor;
    [|apply IH; intros; apply Hin; now right].
  unfold start_option in Hro.
  destruct (week_days (week_day r)) as [name|]; cbn [mbind result_bind] in Hro;
    [|discriminate].
  destruct (duration routes c0 c1) as [d|] eqn:Hd; cbn [mbind result_bind] in Hro;
    [|discriminate].
  destruct (connect _ _ _ _ _ _ _) as [[[text' t'] p']|] eqn:Hc;
    cbn [mbind result_bind] in Hro; [|discriminate].
  injection Hro as <-. cbn [option_price].
  apply connect_rows in Hc as (rows & Hrows & Hp).
  exists (r :: rows). rewrite legs_cons.
  split; [constructor; [apply Hin; now left|exact Hrows]|].
  unfold total_price_of in *. simpl. lia.
Qed.

(** A path of two cities or more gives the empty list exactly when the
    timetable has no row for its first leg, whatever the other legs are. *)
Theorem no_option_iff_no_first_flight (c0 c1 : city) (rest : list city) :
  find_flights routes flights (c0 :: c1 :: rest) = Ok []
  <-> pair_options flights c0 c1 = [].
Proof.
  unfold find_flights. split.
  - intros H. apply for_each_ok in H. inversion H. reflexivity.
  - intros ->. reflexivity.
Qed.

Lemma connect_needs city_to rest text t p text' t' p' :
  connect routes flights city_to rest text t p = Ok (text', t', p') ->
  forall a b, consecutive a b (city_to :: rest) ->
    pair_options flights a b <> [] /\ exists d, duration routes a b = Ok d.
Proof.
  revert city_to text t p. induction rest as [|next rest IH];
    intros city_to text t p H a b Hc.
  - destruct (consecutive_single _ _ _ Hc).
  - cbn [connect] in H.
    destruct (find_nearest_flight routes flights city_to next t p)
      as [[[c t1] p1]|] eqn:E; cbn [mbind result_bind] in H; [|discriminate].
    apply consecutive_inv in Hc as [[-> ->]|Hc]; [|eapply IH; eassumption].
    destruct (timedelta_to_day_hour_minutes (t + td 0 3 0))
      as [[day hours] minutes] eqn:Hn.
    destruct (find_nearest_flight_inv routes flights _ _ _ _ _ _ _ _ _ _ Hn E)
      as (r & d & _ & _ & Hr & Hd & _).
    split; [|eauto]. intros Hnil. rewrite Hnil in Hr. destruct Hr.
Qed.

Lemma find_flights_total (c0 c1 : city) (rest : list city) :
  wf_timetable flights ->
  (forall a b, consecutive a b (c0 :: c1 :: rest) ->
     pair_options flights a b <> [] /\ exists d, duration routes a b = Ok d) ->
  exists opts,
    find_flights routes flights (c0 :: c1 :: rest) = Ok opts /\
    length opts = length (pair_options flights c0 c1).
Proof.
  intros Hwf Hlegs. unfold find_flights.
  destruct (for_each_total (start_option routes flights c0 c1 rest)
              (pair_options flights c0 c1)) as [opts Hopts].
  { intros r Hr. unfold start_option.
    destruct (week_days_wf r) as [name ->].
    { eapply wf_pair_options; eassumption. }
    cbn [mbind result_bind].
    destruct (Hlegs c0 c1) as (_ & d & ->); [exists [], rest; reflexivity|].
    cbn [mbind result_bind].
    match goal with |- context [connect ?a ?b ?c ?d ?e ?f ?g] =>
      destruct (connect_total a b Hwf c d e f g) as (text' & t' & p' & ->)
    end.
    { intros a b (l1 & l2 & E). apply Hlegs.
      exists (c0 :: l1), l2. rewrite E. reflexivity. }
    cbn [mbind result_bind]. eauto. }
  exists opts. split; [exact Hopts|].
  apply for_each_ok in Hopts. symmetry. eapply Forall2_length, Hopts.
Qed.

(** When the first leg has a row, [find_flights] returns its list exactly
    when every leg of the path has an entry in [routes] and a row in the
    timetable; otherwise it raises. *)
Theorem find_flights_succeeds_iff (c0 c1 : city) (rest : list city) :
  wf_timetable flights ->
  pair_options flights c0 c1 <> [] ->
  (exists opts, find_flights routes flights (c0 :: c1 :: rest) = Ok opts)
  <-> (forall a b, consecutive a b (c0 :: c1 :: rest) ->
         pair_options flights a b <> [] /\ exists d, duration routes a b = Ok d).
Proof.
  intros Hwf Hfirst. split.
  - intros [opts H] a b Hc. unfold find_flights in H. apply for_each_ok in H.
    destruct (pair_options flights c0 c1) as [|r rs] eqn:E; [congruence|].
    inversion H as [|? o ? os Hro _]; subst.
    unfold start_option in Hro.
    destruct (week_days (week_day r)) as [name|];
      cbn [mbind result_bind] in Hro; [|discriminate].
    destruct (duration routes c0 c1) as [d|] eqn:Hd;
      cbn [mbind result_bind] in Hro; [|discriminate].
    destruct (connect _ _ _ _ _ _ _) as [[[text' t'] p']|] eqn:Hcn;
      cbn [mbind result_bind] in Hro; [|discriminate].
    apply consecutive_inv in Hc as [[-> ->]|Hc].
    + split; [rewrite E; discriminate|eauto].
    + eapply connect_needs; eassumption.
  - intros Hlegs.
    destruct (find_flights_total c0 c1 rest Hwf Hlegs) as (opts & H & _).
    eauto.
Qed.

End AssemblerMore.

Lemma layovers_in_travel_time_witness :
  Forall (fun o => exists air,
            airborne_time abcd_routes ["A"; "B"; "C"; "D"]%string = Ok air /\
            air + td 0 3 0 * Z.of_nat (length ["C"; "D"]%string) <= travel_time o)
    [ {| option_flights :=
           "A Воскресенье 20:00 B Воскресенье 10:00 C Воскресенье 18:00";
         option_price := 370;
         travel_time := td 21 19 0 - td 7 20 0 |} ].
Proof.
  apply (layovers_in_travel_time abcd_routes sunday_flights "A" "B"
           ["C"; "D"]%string).
  - repeat constructor; vm_compute; congruence.
  - reflexivity.
Defined.

Lemma price_is_sum_of_legs_witness :
  Forall (fun o => exists rows,
            Forall2 (flies abc_flights) (legs ["A"; "B"; "C"]%string) rows /\
            option_price o = total_price_of rows)
    [ {| option_flights := "A Понедельник 08:00 B Понедельник 20:00";
         option_price := 240; travel_time := td 0 15 0 |} ].
Proof.
  apply (price_is_sum_of_legs abc_routes abc_flights "A" "B" ["C"%string]).
  reflexivity.
Defined.

Lemma find_flights_succeeds_iff_witness :
  (exists opts, find_flights abc_routes no_bc_flights ["A"; "B"; "C"]%string
                  = Ok opts)
  <-> (forall a b, consecutive a b ["A"; "B"; "C"]%string ->
         pair_options no_bc_flights a b <> [] /\
         exists d, duration abc_routes a b = Ok d).
Proof.
  apply (find_flights_succeeds_iff abc_routes no_bc_flights "A" "B" ["C"%string]).
  - repeat constructor; vm_compute; congruence.
  - discriminate.
Defined.

(** ** More on the route search *)

Section RouteFacts.

Variable routes : routes_t.

Lemma route_cons (s u v : city) (p : list city) :
  edge routes s u -> route routes u v p -> route routes s v (s :: p).
Proof.
  intros Hed. induction 1 as [|w v p _ IH Hwv].
  - apply (route_step routes s s u [s]); [constructor|exact Hed].
  - apply (route_step routes s w v (s :: p)); assumption.
Qed.

Lemma route_rev (s v : city) (p : list city) :
  symmetric_graph routes -> route routes s v p -> route routes v s (rev p).
Proof.
  intros Hsym. induction 1 as [|u v p _ IH Hed]; [constructor|].
  rewrite rev_app_distr. simpl. apply route_cons with u; [|exact IH].
  apply Hsym, Hed.
Qed.

Lemma route_head (s v : city) (p : list city) :
  route routes s v p -> exists tl, p = s :: tl.
Proof.
  induction 1 as [|u v p _ [tl ->] _]; [eauto|]. simpl. eauto.
Qed.

Lemma route_last (s v : city) (p : list city) :
  route routes s v p -> exists l, p = l ++ [v].
Proof. destruct 1; [exists []; reflexivity|eauto]. Qed.

Lemma route_edges (s v : city) (p : list city) :
  route routes s v p ->
  forall a b, consecutive a b p -> edge routes a b.
Proof.
  induction 1 as [|u v p Hp IH Hed]; intros a b (l1 & l2 & E).
  - destruct l1 as [|x [|y l1]]; discriminate.
  - destruct (route_last _ _ _ Hp) as [l Hl].
    destruct l2 as [|z l2] using rev_ind.
    + rewrite Hl in E.
      replace (l1 ++ [a; b]) with ((l1 ++ [a]) ++ [b]) in E
        by (rewrite <- app_assoc; reflexivity).
      apply app_inj_tail in E as [E <-].
      apply app_inj_tail in E as [_ <-]. exact Hed.
    + clear IHl2. apply (IH a b). exists l1, l2.
      replace (l1 ++ a :: b :: l2 ++ [z]) with ((l1 ++ a :: b :: l2) ++ [z]) in E
        by (rewrite <- app_assoc; reflexivity).
      apply app_inj_tail in E as [E _]. exact E.
Qed.

Lemma airborne_snoc (l : list city) : forall u v a d,
  airborne_time routes (l ++ [u]) = Ok a ->
  duration routes u v = Ok d ->
  airborne_time routes (l ++ [u; v]) = Ok (a + d).
Proof.
  induction l as [|x l IH]; intros u v a d Ha Hd.
  - simpl in Ha. injection Ha as <-.
    change ([] ++ [u; v]) with [u; v].
    rewrite airborne_time_cons, Hd. cbn. f_equal. lia.
  - destruct l as [|y l].
    + change ([x] ++ [u]) with [x; u] in Ha.
      change ([x] ++ [u; v]) with [x; u; v].
      rewrite airborne_time_cons in *.
      destruct (duration routes x u) as [dx|]; cbn [mbind result_bind] in *;
        [|discriminate].
      rewrite airborne_time_cons, Hd. cbn in *. injection Ha as <-.
      f_equal. lia.
    + change ((x :: y :: l) ++ [u]) with (x :: y :: (l ++ [u])) in Ha.
      change ((x :: y :: l) ++ [u; v]) with (x :: y :: (l ++ [u; v])).
      rewrite airborne_time_cons in *.
      destruct (duration routes x y) as [dx|]; cbn [mbind result_bind] in *;
        [|discriminate].
      destruct (airborne_time routes (y :: l ++ [u])) as [a'|] eqn:Ea;
        cbn [mbind result_bind] in Ha; [|discriminate].
      injection Ha as <-.
      pose proof (IH u v a' d Ea Hd) as Hih.
      change ((y :: l) ++ [u; v]) with (y :: l ++ [u; v]) in Hih.
      rewrite Hih. cbn. f_equal. lia.
Qed.

End RouteFacts.

Section SearchMore.

Variable routes : routes_t.
Variables s e : city.
Hypothesis routes_closed : closed_graph routes.

(** The walk along [parents] once more, with the levels of the cities it
    passes and the flight time it adds up. *)
Lemma walk_back_full st d : forall v fuel par path total,
  core routes s e st ->
  has_level st d v ->
  parents st !! v = Some par ->
  (d < fuel)%nat ->
  exists chain tot,
    walk_back fuel routes (parents st) par v path total = Ok (path ++ chain, tot) /\
    route routes s v (rev chain ++ [v]) /\
    length chain = d /\
    Forall (fun x => exists d', (d' < d)%nat /\ has_level st d' x) chain /\
    List.NoDup chain /\
    exists air, airborne_time routes (rev chain ++ [v]) = Ok air /\
                tot = total + air.
Proof.
  induction d as [|d IH]; intros v fuel par path total Hcore Hv Hpar Hfuel;
    (destruct fuel as [|fuel]; [lia|]);
    pose proof (core_parent _ _ _ _ Hcore v _ Hv) as Hp; cbn [walk_back].
  - rewrite Hp in Hpar. injection Hpar as <-.
    exists [], total. rewrite app_nil_r. split; [reflexivity|].
    destruct (core_level _ _ _ _ Hcore v _ Hv) as [(p & Hroute & Hlen) _].
    rewrite (route_single routes s v p Hroute Hlen).
    split; [constructor|]. split; [reflexivity|].
    split; [constructor|]. split; [constructor|].
    exists 0. split; [reflexivity|lia].
  - destruct Hp as (u & Hu & Hed & Hlu).
    rewrite Hu in Hpar. injection Hpar as <-.
    destruct (edge_duration routes u v Hed) as [du Hdu]. rewrite Hdu.
    cbn [mbind result_bind].
    assert (Hpu : exists pu, parents st !! u = Some pu).
    { pose proof (core_parent _ _ _ _ Hcore u _ Hlu) as H.
      destruct d; [eauto|]. destruct H as (x & -> & _). eauto. }
    destruct Hpu as [pu Hpu]. unfold getitem. rewrite Hpu.
    cbn [mbind result_bind].
    destruct (IH u fuel pu (path ++ [u]) (total + du) Hcore Hlu Hpu)
      as (chain & tot & Hwalk & Hroute & Hlen & Hlv & Hnd & air & Hair & Htot);
      [lia|].
    exists (u :: chain), tot. rewrite Hwalk.
    split; [now rewrite <- app_assoc|].
    split; [simpl; econstructor; eassumption|].
    split; [simpl; lia|].
    split.
    { constructor; [exists d; split; [lia|exact Hlu]|].
      eapply List.Forall_impl; [|exact Hlv].
      intros x (d' & Hd' & Hx). exists d'. split; [lia|exact Hx]. }
    split.
    { constructor; [|exact Hnd]. intros Hin.
      rewrite List.Forall_forall in Hlv.
      destruct (Hlv u Hin) as (d' & Hd' & Hx).
      pose proof (has_level_fun st u _ _ Hx Hlu). lia. }
    exists (air + du). split; [|lia].
    simpl. rewrite <- app_assoc. apply airborne_snoc; assumption.
Qed.

(** All that is known of a path that the search returns. *)
Lemma search_found (p : list city) (tot : timedelta) :
  search routes s e = Ok (Some (p, tot)) ->
  has_key routes s = true /\ has_key routes e = true /\ e <> s /\
  route routes s e p /\
  (forall p', route routes s e p' -> (length p <= length p')%nat) /\
  List.NoDup p /\ (length p <= length routes)%nat /\
  airborne_time routes p = Ok tot.
Proof.
  intros H.
  destruct (has_key routes s) eqn:Hs;
    [|unfold search in H; rewrite Hs in H; discriminate].
  destruct (has_key routes e) eqn:He;
    [|unfold search in H; rewrite Hs, He in H; discriminate].
  unfold search in H. rewrite Hs, He in H. simpl negb in H. cbn [orb] in H.
  destruct (bfs_spec routes s e routes_closed (budget routes)
              (initial routes s) (length routes))
    as (st & Hbfs & Hcore & Hfr & [n (U & _ & _ & Hbound)]).
  { apply initial_core, Hs. }
  { intros _. apply initial_frontier. }
  { apply initial_measure, Hs. }
  { unfold budget. lia. }
  rewrite Hbfs in H. cbn [mbind result_bind] in H.
  pose proof (core_found _ _ _ _ Hcore) as Hfound.
  destruct (path_exists st); simpl negb in H; cbn match in H; [|discriminate].
  destruct Hfound as [d Hd].
  destruct (core_parent _ _ _ _ Hcore e _ Hd) as (u & Hu & _).
  unfold getitem in H. rewrite Hu in H. cbn [mbind result_bind] in H.
  destruct (walk_back_full st (S d) e (budget routes) (Some u) [e] 0
              Hcore Hd Hu)
    as (chain & tot' & Hwalk & Hroute & Hlen & Hlv & Hnd & air & Hair & Htot).
  { specialize (Hbound e _ Hd). unfold budget. lia. }
  rewrite Hwalk in H. cbn [mbind result_bind] in H.
  injection H as <- <-.
  split; [reflexivity|]. split; [reflexivity|].
  split.
  { intros ->. pose proof (core_start _ _ _ _ Hcore) as H0.
    pose proof (has_level_fun st s _ _ H0 Hd). discriminate. }
  assert (Hshape : rev chain ++ [e] = rev (e :: chain)) by reflexivity.
  split; [exact Hroute|]. split.
  { intros p' Hp'. destruct (core_level _ _ _ _ Hcore e _ Hd) as [_ Hmin].
    specialize (Hmin p' Hp'). rewrite length_app, length_rev. simpl. lia. }
  split.
  { rewrite Hshape. apply List.NoDup_rev. constructor; [|exact Hnd].
    intros Hin. rewrite List.Forall_forall in Hlv.
    destruct (Hlv e Hin) as (d' & Hd' & Hx).
    pose proof (has_level_fun st e _ _ Hx Hd). lia. }
  split.
  { rewrite length_app, length_rev. simpl.
    specialize (Hbound e _ Hd). lia. }
  rewrite Hair. f_equal. lia.
Qed.

Lemma find_path_search (p : list city) :
  find_path routes s e = Ok (Some p) ->
  exists tot, search routes s e = Ok (Some (p, tot)).
Proof.
  unfold find_path. destruct (search routes s e) as [[[p' tot]|]|];
    try discriminate.
  intros [= <-]. eauto.
Qed.

End SearchMore.

Section SearchFacts.

Variable routes : routes_t.
Hypothesis routes_closed : closed_graph routes.

(** In a network whose neighbours are all keys the search never raises and
    always ends. *)
Lemma search_total (s e : city) : exists r, search routes s e = Ok r.
Proof.
  destruct (has_key routes s) eqn:Hs;
    [|unfold search; rewrite Hs; simpl; eauto].
  destruct (has_key routes e) eqn:He;
    [|unfold search; rewrite Hs, He; simpl; eauto].
  destruct (search_cases routes s e routes_closed Hs He)
    as [(p & tot & -> & _)|[-> _]]; eauto.
Qed.

(** A path that the search returns starts at the start, ends at the end,
    passes no city twice, has no more cities than [routes] has keys, and
    each of its steps is an entry of [routes]. *)
Theorem path_shape (s e : city) (p : list city) :
  find_path routes s e = Ok (Some p) ->
  (exists mid, p = s :: mid ++ [e]) /\
  List.NoDup p /\
  (length p <= length routes)%nat /\
  (forall a b, consecutive a b p -> edge routes a b).
Proof.
  intros H. apply find_path_search in H as [tot H].
  apply (search_found routes s e routes_closed) in H
    as (_ & _ & Hne & Hroute & _ & Hnd & Hlen & _).
  split; [|split; [exact Hnd|split; [exact Hlen|]]].
  - destruct (route_head _ _ _ _ Hroute) as [tl ->].
    destruct (route_last _ _ _ _ Hroute) as [l Hl].
    destruct l as [|x l]; simpl in Hl.
    + injection Hl as -> _. congruence.
    + injection Hl as <- ->. eauto.
  - eapply route_edges. exact Hroute.
Qed.

(** The time on board that the program prints with the path is the sum of
    the flight durations of its legs, before formatting. *)
Theorem time_on_board_is_sum (s e : city) (p : list city) (tot : timedelta) :
  search routes s e = Ok (Some (p, tot)) ->
  airborne_time routes p = Ok tot.
Proof.
  intros H. apply (search_found routes s e routes_closed) in H. apply H.
Qed.

(** In a network stored in both directions the way back has as many hops
    as the way there. *)
Theorem way_back_same_length (s e : city) (p : list city) :
  symmetric_graph routes ->
  find_path routes s e = Ok (Some p) ->
  exists p', find_path routes e s = Ok (Some p') /\ length p' = length p.
Proof.
  intros Hsym H. apply find_path_search in H as [tot H].
  apply (search_found routes s e routes_closed) in H
    as (Hs & He & Hne & Hroute & Hmin & _).
  destruct (search_cases routes e s routes_closed He Hs)
    as [(p' & tot' & Hsearch & _ & Hroute' & Hmin')|[_ [Heq|Hno]]].
  - exists p'. unfold find_path. rewrite Hsearch. split; [reflexivity|].
    specialize (Hmin (rev p') (route_rev routes e s p' Hsym Hroute')).
    specialize (Hmin' (rev p) (route_rev routes s e p Hsym Hroute)).
    rewrite length_rev in Hmin, Hmin'. lia.
  - congruence.
  - exfalso. apply Hno. exists (rev p). apply route_rev; assumption.
Qed.

Lemma query_cases (flights : list flight) (s e : city) :
  wf_timetable flights ->
  (forall u v, edge routes u v -> pair_options flights u v <> []) ->
  query routes flights s e = Ok Unreachable \/
  exists c1 rest shown opts,
    query routes flights s e = Ok (Route (s :: c1 :: rest) shown opts) /\
    length opts = length (pair_options flights s c1) /\
    opts <> [].
Proof.
  intros Hwf Hflights. unfold query.
  destruct (search_total s e) as [[[p tot]|] Hsearch]; rewrite Hsearch;
    [|now left].
  right.
  apply (search_found routes s e routes_closed) in Hsearch
    as (_ & _ & Hne & Hroute & _).
  destruct (route_head _ _ _ _ Hroute) as [tl ->].
  destruct tl as [|c1 rest].
  { destruct (route_last _ _ _ _ Hroute) as [l Hl].
    destruct l as [|x [|y l]]; try discriminate.
    injection Hl as ->. congruence. }
  assert (Hlegs : forall a b, consecutive a b (s :: c1 :: rest) ->
            pair_options flights a b <> [] /\
            exists d, duration routes a b = Ok d).
  { intros a b Hc. pose proof (route_edges _ _ _ _ Hroute a b Hc) as Hed.
    split; [apply Hflights, Hed|apply edge_duration, Hed]. }
  destruct (find_flights_total routes flights s c1 rest Hwf Hlegs)
    as (opts & -> & Hlen).
  cbn [mbind result_bind].
  exists c1, rest, (timedelta_to_formatted_string tot), opts.
  split; [reflexivity|]. split; [exact Hlen|].
  intros ->. destruct (Hlegs s c1) as [Hne' _]; [exists [], rest; reflexivity|].
  destruct (pair_options flights s c1); [congruence|discriminate].
Qed.

(** With a timetable that has a row for every entry of [routes], a query
    never raises: it answers "no route", or a path of two cities or more
    from the start with one option for each first-leg row, at least one. *)
Theorem query_never_raises (flights : list flight) (s e : city) :
  wf_timetable flights ->
  (forall u v, edge routes u v -> pair_options flights u v <> []) ->
  query routes flights s e = Ok Unreachable \/
  exists c1 rest shown opts,
    query routes flights s e = Ok (Route (s :: c1 :: rest) shown opts) /\
    length opts = length (pair_options flights s c1) /\
    opts <> [].
Proof. apply query_cases. Qed.

End SearchFacts.

(** When the first neighbour of the start is no key of [routes], the
    lookup [n_routes[neigh_v]] raises [KeyError] and the query with it. *)
Theorem missing_neighbour_key_error
    (routes : routes_t) (flights : list flight) (s e w : city)
    (d : timedelta) (rest : list (city * timedelta)) :
  has_key routes s = true ->
  has_key routes e = true ->
  neighbours routes s = (w, d) :: rest ->
  has_key routes w = false ->
  find_path routes s e = Err KeyError /\
  query routes flights s e = Err KeyError.
Proof.
  intros Hs He Hn Hw.
  assert (Hsearch : search routes s e = Err KeyError).
  { unfold search. rewrite Hs, He. simpl negb. cbn [orb].
    unfold budget. cbn [bfs initial queue path_exists].
    rewrite Hn. cbn [map fst visit n_routes].
    assert (Hget : getitem (n_routes (initial routes s)) w = Err KeyError).
    { unfold getitem, initial. cbn [n_routes].
      rewrite lookup_insert_ne by (intros ->; congruence).
      rewrite unset_lookup, Hw. reflexivity. }
    rewrite Hget. reflexivity. }
  unfold find_path, query. rewrite Hsearch. split; reflexivity.
Qed.

Lemma path_shape_witness :
  (exists mid, ["A"; "B"; "C"]%string = "A"%string :: mid ++ ["C"%string]) /\
  List.NoDup ["A"; "B"; "C"]%string /\
  (length ["A"; "B"; "C"]%string <= length abc_routes)%nat /\
  (forall a b, consecutive a b ["A"; "B"; "C"]%string -> edge abc_routes a b).
Proof.
  apply (path_shape abc_routes abc_routes_closed "A" "C"). reflexivity.
Defined.

Lemma time_on_board_is_sum_witness :
  airborne_time abc_routes ["A"; "B"; "C"]%string = Ok (td 0 5 0).
Proof.
  apply (time_on_board_is_sum abc_routes abc_routes_closed "A" "C").
  reflexivity.
Defined.

Lemma abc_routes_symmetric : symmetric_graph abc_routes.
Proof.
  intros u v H. unfold edge, neighbours, abc_routes in *. simpl in H.
  destruct (String.eqb u "A") eqn:Ea;
    [apply String.eqb_eq in Ea; subst u; simpl in H;
     destruct H as [<-|[]]; simpl; auto|].
  destruct (String.eqb u "B") eqn:Eb;
    [apply String.eqb_eq in Eb; subst u; simpl in H;
     destruct H as [<-|[<-|[]]]; simpl; auto|].
  destruct (String.eqb u "C") eqn:Ec;
    [apply String.eqb_eq in Ec; subst u; simpl in H;
     destruct H as [<-|[]]; simpl; auto|].
  destruct H.
Qed.

Lemma way_back_same_length_witness :
  exists p', find_path abc_routes "C" "A" = Ok (Some p') /\
             length p' = length ["A"; "B"; "C"]%string.
Proof.
  apply (way_back_same_length abc_routes abc_routes_closed "A" "C").
  - exact abc_routes_symmetric.
  - reflexivity.
Defined.

Lemma query_never_raises_witness :
  query abc_routes abc_round_flights "C" "A" = Ok Unreachable \/
  exists c1 rest shown opts,
    query abc_routes abc_round_flights "C" "A"
      = Ok (Route ("C"%string :: c1 :: rest) shown opts) /\
    length opts = length (pair_options abc_round_flights "C" c1) /\
    opts <> [].
Proof.
  apply (query_never_raises abc_routes abc_routes_closed).
  - repeat constructor; vm_compute; congruence.
  - intros u v H. unfold edge, neighbours, abc_routes in H. simpl in H.
    destruct (String.eqb u "A") eqn:Ea;
      [apply String.eqb_eq in Ea; subst u; simpl in H;
       destruct H as [<-|[]]; discriminate|].
    destruct (String.eqb u "B") eqn:Eb;
      [apply String.eqb_eq in Eb; subst u; simpl in H;
       destruct H as [<-|[<-|[]]]; discriminate|].
    destruct (String.eqb u "C") eqn:Ec;
      [apply String.eqb_eq in Ec; subst u; simpl in H;
       destruct H as [<-|[]]; discriminate|].
    destruct H.
Defined.

Lemma missing_neighbour_key_error_witness :
  find_path one_way_routes "A" "A" = Err KeyError /\
  query one_way_routes abc_flights "A" "A" = Err KeyError.
Proof.
  apply (missing_neighbour_key_error one_way_routes abc_flights "A" "A" "B"
           (td 0 2 0) []); reflexivity.
Defined.

(** ** The generator *)

Section Dicts.

Lemma assoc_set_assoc {B} (k k' : city) (v : B) (l : list (city * B)) :
  assoc k' (set_assoc k v l) = if String.eqb k' k then Some v else assoc k' l.
Proof.
  induction l as [|[k0 v0] l IH]; simpl.
  - reflexivity.
  - destruct (String.eqb_spec k k0) as [->|Hne]; simpl.
    + destruct (String.eqb k' k0); reflexivity.
    + rewrite IH. destruct (String.eqb_spec k' k0) as [->|Hne'];
        [|reflexivity].
      rewrite string_eqb_false by congruence. reflexivity.
Qed.

Lemma neighbours_set_route (routes : routes_t) (a b x : city) (t : timedelta) :
  neighbours (set_route routes a b t) x
  = if String.eqb x a then set_assoc b t (neighbours routes a)
    else neighbours routes x.
Proof.
  unfold neighbours at 1, set_route. rewrite assoc_set_assoc.
  destruct (String.eqb x a); reflexivity.
Qed.

Lemma duration_set_route (routes : routes_t) (a b u v : city) (t : timedelta) :
  duration (set_route routes a b t) u v
  = if String.eqb u a && String.eqb v b then Ok t else duration routes u v.
Proof.
  unfold duration. rewrite neighbours_set_route.
  destruct (String.eqb_spec u a) as [->|Hne]; simpl; [|reflexivity].
  rewrite assoc_set_assoc. destruct (String.eqb v b); reflexivity.
Qed.

Lemma has_key_set_route (routes : routes_t) (a b x : city) (t : timedelta) :
  has_key (set_route routes a b t) x = String.eqb x a || has_key routes x.
Proof.
  unfold has_key, set_route. rewrite assoc_set_assoc.
  destruct (String.eqb x a); reflexivity.
Qed.

Lemma edge_iff_duration (routes : routes_t) (u v : city) :
  edge routes u v <-> exists t, duration routes u v = Ok t.
Proof.
  unfold edge, duration. rewrite assoc_In. split; intros [t H].
  - rewrite H. eauto.
  - destruct (assoc v (neighbours routes u)); [eauto|discriminate].
Qed.

Lemma edge_set_route (routes : routes_t) (a b u v : city) (t : timedelta) :
  edge (set_route routes a b t) u v <-> (u = a /\ v = b) \/ edge routes u v.
Proof.
  rewrite !edge_iff_duration. setoid_rewrite duration_set_route.
  destruct (String.eqb_spec u a) as [->|Hu];
    destruct (String.eqb_spec v b) as [->|Hv]; simpl;
    split; eauto; intros [[? ?]|H]; eauto; congruence.
Qed.

End Dicts.

Lemma pair_options_nonempty (flights : list flight) (a b : city) (r : flight) :
  In r flights -> on_pair a b r = true -> pair_options flights a b <> [].
Proof.
  intros Hin Hp Hnil.
  assert (H : In r (pair_options flights a b))
    by (apply List.filter_In; auto).
  rewrite Hnil in H. destruct H.
Qed.

Lemma pair_options_has_row (flights : list flight) (a b : city) :
  pair_options flights a b <> [] ->
  exists r, In r flights /\ on_pair a b r = true.
Proof.
  destruct (pair_options flights a b) as [|r l] eqn:E; [congruence|].
  intros _. exists r. apply List.filter_In.
  fold (pair_options flights a b). rewrite E. now left.
Qed.

Section Schedule.

(** The return flight is entered [travel_time] plus five hours after the
    direct one, up to whole weeks, on a weekday 1..7 at a whole minute of
    the day, as long as that moment lies before the end of the second
    week. *)
Theorem return_flight_five_hours_later (day hours minutes : Z) (travel_time : timedelta) :
  1 <= day <= 7 -> 0 <= hours <= 23 -> 0 <= minutes <= 59 ->
  0 <= travel_time -> travel_time mod 60 = 0 ->
  td day hours minutes + travel_time + td 0 5 0 < td 14 0 0 ->
  exists back_day back_time,
    backward_departure day (td 0 hours minutes) travel_time = (back_day, back_time) /\
    1 <= back_day <= 7 /\
    0 <= back_time < 86400 /\ back_time mod 60 = 0 /\
    (td back_day 0 0 + back_time
     - (td day hours minutes + travel_time + td 0 5 0)) mod td 7 0 0 = 0.
Proof.
  intros Hd Hh Hm Ht Ht60 Hlt.
  unfold backward_departure.
  set (T := td day 0 0 + td 0 hours minutes + (travel_time + td 0 5 0)).
  assert (HTeq : T = td day hours minutes + travel_time + td 0 5 0)
    by (unfold T, td; lia).
  pose proof (day_hour_minutes_spec T) as Hspec.
  unfold timedelta_to_day_hour_minutes in Hspec.
  destruct Hspec as (_ & Hh' & Hm' & Hhm).
  eexists _, _. split; [reflexivity|].
  assert (HT : T = 86400 * td_days T + td_seconds T) by (apply Z.div_mod; lia).
  assert (Hsec : 0 <= td_seconds T < 86400) by (apply Z.mod_pos_bound; lia).
  assert (HTpos : td 1 0 0 <= T < td 14 0 0) by (unfold td in *; lia).
  assert (Hdays : 1 <= td_days T <= 13).
  { unfold td in HTpos. split.
    - apply Z.div_le_lower_bound; lia.
    - apply Z.lt_succ_r, Z.div_lt_upper_bound; lia. }
  assert (Hs60 : td_seconds T mod 60 = 0).
  { unfold td_seconds.
    assert (HT60 : T mod 60 = 0).
    { pose proof (Z.div_mod travel_time 60 ltac:(lia)) as Hq.
      replace T with (0 + (day * 1440 + hours * 60 + minutes
                            + travel_time / 60 + 300) * 60)
        by (unfold T, td; lia).
      rewrite Z.mod_add by lia. reflexivity. }
    pose proof (Z.div_mod T 86400 ltac:(lia)) as H1.
    pose proof (Z.div_mod T 60 ltac:(lia)) as H2.
    pose proof (Z.div_mod (T mod 86400) 60 ltac:(lia)) as H3.
    assert (Hdiv : (T mod 86400 mod 60 - T mod 60) mod 60 = 0).
    { replace (T mod 86400 mod 60 - T mod 60)
        with ((T / 60 - 1440 * (T / 86400) - T mod 86400 / 60) * 60) by lia.
      apply Z.mod_mul. lia. }
    rewrite HT60, Z.sub_0_r, Z.mod_mod in Hdiv by lia. exact Hdiv. }
  rewrite Hhm, Hs60, Z.sub_0_r.
  split.
  { destruct (7 <? td_days T) eqn:E.
    - apply Z.ltb_lt in E.
      pose proof (Z.div_mod (td_days T) 7 ltac:(lia)).
      pose proof (Z.mod_pos_bound (td_days T) 7 ltac:(lia)).
      lia.
    - apply Z.ltb_ge in E. lia. }
  split; [exact Hsec|]. split; [exact Hs60|].
  rewrite <- HTeq.
  destruct (7 <? td_days T) eqn:E.
  - pose proof (Z.div_mod (td_days T) 7 ltac:(lia)).
    replace (td (td_days T mod 7) 0 0 + td_seconds T - T)
      with (- (td_days T / 7) * td 7 0 0) by (unfold td in *; lia).
    apply Z.mod_mul. unfold td. lia.
  - replace (td (td_days T) 0 0 + td_seconds T - T) with 0
      by (unfold td in *; lia).
    reflexivity.
Qed.

Lemma return_flight_five_hours_later_witness :
  exists back_day back_time,
    backward_departure 7 (td 0 23 59) (td 0 9 0) = (back_day, back_time) /\
    1 <= back_day <= 7 /\
    0 <= back_time < 86400 /\ back_time mod 60 = 0 /\
    (td back_day 0 0 + back_time
     - (td 7 23 59 + td 0 9 0 + td 0 5 0)) mod td 7 0 0 = 0.
Proof.
  apply (return_flight_five_hours_later 7 23 59 (td 0 9 0));
    vm_compute; try reflexivity; try (split; congruence); congruence.
Defined.

Variable routes : routes_t.
Variables o d : city.
Variable travel_time : timedelta.

(** What [make_schedule] adds for an edge that is in [routes] in both
    directions. *)
Lemma make_schedule_spec (draws : list departure_draw) : forall schedule x y,
  duration routes o d = Ok x ->
  duration routes d o = Ok y ->
  exists new,
    make_schedule routes o d travel_time draws schedule = Ok (schedule ++ new) /\
    length new = (2 * length draws)%nat /\
    (draws <> [] -> pair_options new o d <> [] /\ pair_options new d o <> []) /\
    (Forall departure_in_range draws ->
     0 <= travel_time <= td 0 9 0 -> travel_time mod 60 = 0 ->
     wf_timetable new).
Proof.
  induction draws as [|dr draws IH]; intros schedule x y Hod Hdo.
  - exists []. simpl. rewrite app_nil_r. split; [reflexivity|].
    split; [reflexivity|]. split; [congruence|]. intros _ _ _. constructor.
  - cbn [make_schedule]. rewrite Hod. cbn [mbind result_bind].
    destruct (backward_departure (direct_week_day dr)
                (td 0 (direct_hours dr) (direct_minutes dr)) travel_time)
      as [bd bt] eqn:Eb.
    rewrite Hdo. cbn [mbind result_bind].
    set (r1 := {| city_from := o; city_to := d;
                  week_day := direct_week_day dr;
                  time := td 0 (direct_hours dr) (direct_minutes dr);
                  price := direct_price dr |}).
    set (r2 := {| city_from := d; city_to := o; week_day := bd; time := bt;
                  price := backward_price dr |}).
    destruct (IH ((schedule ++ [r1]) ++ [r2]) x y Hod Hdo)
      as (new & -> & Hlen & _ & Hwf).
    exists (r1 :: r2 :: new). split; [now rewrite <- !app_assoc|].
    split; [simpl; lia|]. split.
    + intros _. split.
      * apply (pair_options_nonempty _ o d r1); [now left|].
        unfold on_pair, r1. simpl. now rewrite !String.eqb_refl.
      * apply (pair_options_nonempty _ d o r2); [right; now left|].
        unfold on_pair, r2. simpl. now rewrite !String.eqb_refl.
    + intros Hdraws Htt Htt60.
      apply List.Forall_cons_iff in Hdraws as [(Hwd & Hh & Hm) Hdraws].
      specialize (Hwf Hdraws Htt Htt60).
      destruct (return_flight_five_hours_later (direct_week_day dr)
                  (direct_hours dr) (direct_minutes dr) travel_time)
        as (bd' & bt' & Eb' & Hbd & Hbt & Hbt60 & _);
        try assumption; try lia.
      { unfold td in *. lia. }
      rewrite Eb in Eb'. injection Eb' as <- <-.
      constructor; [|constructor; [|exact Hwf]].
      * unfold wf_row, r1. simpl. split; [exact Hwd|].
        split; [unfold td; lia|].
        replace (td 0 (direct_hours dr) (direct_minutes dr))
          with (0 + (direct_hours dr * 60 + direct_minutes dr) * 60)
          by (unfold td; lia).
        rewrite Z.mod_add by lia. reflexivity.
      * unfold wf_row, r2. simpl. auto.
Qed.

End Schedule.

Section Generator.

Lemma minutes_as_timedelta (m : Z) : td 0 (m / 60) (m mod 60) = m * 60.
Proof. unfold td. pose proof (Z.div_mod m 60 ltac:(lia)). lia. Qed.

Lemma empty_fixture : fixture [] ∅ [].
Proof.
  constructor.
  - intros u v H. destruct H.
  - intros u v t H. discriminate.
  - intros u v. split; [intros H; destruct H|].
    intros H. apply elem_of_empty in H. destruct H.
  - constructor.
  - intros u v H. destruct H.
Qed.

Lemma pair_options_app (l1 l2 : list flight) (a b : city) :
  pair_options (l1 ++ l2) a b = pair_options l1 a b ++ pair_options l2 a b.
Proof. apply List.filter_app. Qed.

(** One new route: both directions are entered with the same flight time,
    nothing that was there changes, and the timetable gets flights for both
    directions. *)
Lemma new_route_fixture routes existing flights o d m new :
  fixture routes existing flights ->
  (o, d) ∉ existing ->
  90 <= m <= 540 ->
  wf_timetable new ->
  pair_options new o d <> [] -> pair_options new d o <> [] ->
  fixture (set_route (set_route routes o d (m * 60)) d o (m * 60))
          ({[ (d, o) ]} ∪ ({[ (o, d) ]} ∪ existing))
          (flights ++ new) /\
  (forall u v t, duration routes u v = Ok t ->
     duration (set_route (set_route routes o d (m * 60)) d o (m * 60)) u v = Ok t).
Proof.
  intros [Hcl Hdur Hex Hwf Hfl] Hnew Hm Hwfn Hod Hdo.
  set (R2 := set_route (set_route routes o d (m * 60)) d o (m * 60)).
  assert (Hedge : forall u v,
            edge R2 u v <-> (u = d /\ v = o) \/ (u = o /\ v = d) \/ edge routes u v).
  { intros u v. unfold R2. rewrite !edge_set_route. tauto. }
  assert (Hnod : ~ edge routes o d) by (rewrite Hex; exact Hnew).
  assert (Hndo : ~ edge routes d o).
  { intros H. apply Hnod. apply edge_iff_duration in H as [t H].
    apply edge_iff_duration. eauto. }
  assert (Hd2 : forall u v t,
            duration R2 u v = Ok t <->
            (((u = d /\ v = o) \/ (u = o /\ v = d)) /\ t = m * 60) \/
            (~ ((u = d /\ v = o) \/ (u = o /\ v = d)) /\
             duration routes u v = Ok t)).
  { intros u v t. unfold R2. rewrite !duration_set_route.
    assert (Hb : (String.eqb u d && String.eqb v o) || (String.eqb u o && String.eqb v d)
                 = true <-> (u = d /\ v = o) \/ (u = o /\ v = d)).
    { rewrite orb_true_iff, !andb_true_iff, !String.eqb_eq. tauto. }
    destruct (String.eqb u d && String.eqb v o) eqn:E1; simpl in Hb.
    - split; [intros [= <-]; left; split; [tauto|reflexivity]|].
      intros [[_ ->]|[Hn _]]; [reflexivity|]. exfalso. apply Hn. tauto.
    - destruct (String.eqb u o && String.eqb v d) eqn:E2.
      + split; [intros [= <-]; left; split; [tauto|reflexivity]|].
        intros [[_ ->]|[Hn _]]; [reflexivity|]. exfalso. apply Hn. tauto.
      + split; [intros H; right; split; [|exact H]|].
        * intros HP. apply Hb in HP. discriminate.
        * intros [[HP _]|[_ H]]; [|exact H]. apply Hb in HP. discriminate. }
  assert (Hkeep : forall u v t, duration routes u v = Ok t ->
                                duration R2 u v = Ok t).
  { intros u v t H. apply Hd2. right. split; [|exact H].
    intros [[-> ->]|[-> ->]].
    - apply Hndo. apply edge_iff_duration. eauto.
    - apply Hnod. apply edge_iff_duration. eauto. }
  split; [|exact Hkeep].
  constructor.
  - intros u v H. apply Hedge in H. unfold R2. rewrite !has_key_set_route.
    destruct H as [[_ ->]|[[_ ->]|H]].
    + rewrite String.eqb_refl. now rewrite orb_true_r.
    + now rewrite String.eqb_refl.
    + rewrite (Hcl u v H). now rewrite !orb_true_r.
  - intros u v t H. apply Hd2 in H. apply Hd2.
    destruct H as [[[[-> ->]|[-> ->]] ->]|[Hn H]].
    + left. tauto.
    + left. tauto.
    + right. split; [tauto|]. apply Hdur, H.
  - intros u v. rewrite Hedge, Hex, !elem_of_union, !elem_of_singleton. split.
    + intros [[-> ->]|[[-> ->]|H]]; auto.
    + intros [[= -> ->]|[[= -> ->]|H]]; auto.
  - apply List.Forall_app. split; assumption.
  - intros u v H. apply Hedge in H. rewrite pair_options_app.
    destruct H as [[-> ->]|[[-> ->]|H]].
    + destruct (pair_options new d o); [congruence|].
      intros E. apply app_eq_nil in E as [_ E]. discriminate.
    + destruct (pair_options new o d); [congruence|].
      intros E. apply app_eq_nil in E as [_ E]. discriminate.
    + specialize (Hfl u v H). intros E. apply app_eq_nil in E as [E _].
      congruence.
Qed.

End Generator.

Section GeneratorLoops.

(** The loop of [add_route] either runs out of draws or enters one new
    route, in both directions, with its flights. *)
Lemma add_route_spec (draws : list route_draw) : forall routes existing flights,
  fixture routes existing flights ->
  Forall draw_in_range draws ->
  add_route draws routes existing flights = Err OutOfFuel \/
  exists routes' existing' new rest,
    add_route draws routes existing flights
      = Ok (routes', existing', flights ++ new, rest) /\
    fixture routes' existing' (flights ++ new) /\
    (size existing < size existing')%nat /\
    Forall draw_in_range rest /\
    (forall u v t, duration routes u v = Ok t -> duration routes' u v = Ok t).
Proof.
  induction draws as [|dr draws IH]; intros routes existing flights Hfix Hdraws.
  - now left.
  - apply List.Forall_cons_iff in Hdraws as [(Hm & Hne & Hdeps) Hdraws].
    cbn [add_route].
    destruct (decide ((origin_city dr, destination_city dr) ∈ existing))
      as [Hin|Hnew]; [apply IH; assumption|].
    right. rewrite minutes_as_timedelta.
    set (o := origin_city dr) in *. set (d := destination_city dr) in *.
    set (m := travel_time_minutes dr) in *.
    set (R2 := set_route (set_route routes o d (m * 60)) d o (m * 60)).
    assert (Hod : duration R2 o d = Ok (m * 60)).
    { unfold R2. rewrite !duration_set_route, !String.eqb_refl. simpl.
      destruct (String.eqb o d && String.eqb d o); reflexivity. }
    assert (Hdo : duration R2 d o = Ok (m * 60)).
    { unfold R2. rewrite duration_set_route, !String.eqb_refl. reflexivity. }
    destruct (make_schedule_spec R2 o d (m * 60) (departures dr) flights
                _ _ Hod Hdo) as (new & -> & _ & Hboth & Hwf).
    cbn [mbind result_bind].
    destruct (Hboth Hne) as [Hnod Hndo].
    assert (Hwfn : wf_timetable new).
    { apply Hwf; [exact Hdeps|unfold td; lia|].
      rewrite Z.mod_mul by lia. reflexivity. }
    destruct (new_route_fixture routes existing flights o d m new
                Hfix Hnew Hm Hwfn Hnod Hndo) as [Hfix' Hkeep].
    eexists _, _, new, draws. split; [reflexivity|].
    split; [exact Hfix'|]. split; [|split; assumption].
    apply subset_size. split.
    + intros x Hx. rewrite !elem_of_union. auto.
    + intros Hsub. apply Hnew, Hsub.
      rewrite !elem_of_union, !elem_of_singleton. auto.
Qed.

(** The loop over the routes, from any state the generator can be in. *)
Lemma add_routes_spec (fuel : nat) : forall draws routes existing flights,
  fixture routes existing flights ->
  Forall draw_in_range draws ->
  add_routes fuel draws routes existing flights = Err OutOfFuel \/
  exists routes' flights' existing',
    add_routes fuel draws routes existing flights = Ok (routes', flights') /\
    fixture routes' existing' flights' /\
    (n_connections <= size existing')%nat.
Proof.
  induction fuel as [|fuel IH]; intros draws routes existing flights Hfix Hdraws;
    [now left|].
  cbn [add_routes]. destruct (size existing <? n_connections)%nat eqn:E.
  - destruct (add_route_spec draws routes existing flights Hfix Hdraws)
      as [->|(routes' & existing' & new & rest & -> & Hfix' & _ & Hrest & _)];
      [now left|].
    cbn [mbind result_bind]. apply IH; assumption.
  - right. exists routes, flights, existing. split; [reflexivity|].
    split; [exact Hfix|]. apply Nat.ltb_ge in E. exact E.
Qed.

Lemma fixture_symmetric routes existing flights :
  fixture routes existing flights -> symmetric_graph routes.
Proof.
  intros Hfix u v H. apply edge_iff_duration in H as [t H].
  apply edge_iff_duration. exists t.
  apply (fixture_durations _ _ _ Hfix), H.
Qed.

End GeneratorLoops.

(** When the draws are those the source can make, [add_route] enters a
    route that was not there, in both directions with one flight time and
    with flights for both; the routes entered before keep their flight
    times and the timetable its rows; every neighbour stays a key, every
    row stays on a weekday 1..7 at a whole minute, and every entry of
    [routes] has a flight. *)
Theorem add_route_keeps_fixture
    (draws : list route_draw) (routes : routes_t)
    (existing : gset (city * city)) (flights : list flight)
    (routes' : routes_t) (existing' : gset (city * city))
    (flights' : list flight) (rest : list route_draw) :
  fixture routes existing flights ->
  Forall draw_in_range draws ->
  add_route draws routes existing flights = Ok (routes', existing', flights', rest) ->
  fixture routes' existing' flights' /\
  (size existing < size existing')%nat /\
  (exists new, flights' = flights ++ new) /\
  (forall u v t, duration routes u v = Ok t -> duration routes' u v = Ok t).
Proof.
  intros Hfix Hdraws H.
  destruct (add_route_spec draws routes existing flights Hfix Hdraws)
    as [He|(r & ex & new & rs & Heq & Hfix' & Hsize & _ & Hkeep)];
    [congruence|].
  rewrite Heq in H. injection H as <- <- <- <-.
  split; [exact Hfix'|]. split; [exact Hsize|]. split; [eauto|exact Hkeep].
Qed.

(** From the empty network, draws within the ranges of the source give,
    unless the draws run out, a network that is stored in both directions
    with equal flight times and has at least [n_connections] directed
    routes, and a timetable of well-formed rows with a flight for every
    directed route.  The generator never raises [KeyError]. *)
Theorem generated_network (fuel : nat) (draws : list route_draw) :
  Forall draw_in_range draws ->
  add_routes fuel draws [] ∅ [] = Err OutOfFuel \/
  exists routes flights (existing : gset (city * city)),
    add_routes fuel draws [] ∅ [] = Ok (routes, flights) /\
    closed_graph routes /\
    symmetric_graph routes /\
    (forall u v t, duration routes u v = Ok t -> duration routes v u = Ok t) /\
    (forall u v, edge routes u v <-> (u, v) ∈ existing) /\
    (n_connections <= size existing)%nat /\
    wf_timetable flights /\
    (forall u v, edge routes u v -> pair_options flights u v <> []).
Proof.
  intros Hdraws.
  destruct (add_routes_spec fuel draws [] ∅ [] empty_fixture Hdraws)
    as [->|(routes & flights & existing & -> & Hfix & Hsize)]; [now left|].
  right. exists routes, flights, existing. split; [reflexivity|].
  split; [apply (fixture_closed _ _ _ Hfix)|].
  split; [eapply fixture_symmetric, Hfix|].
  split; [apply (fixture_durations _ _ _ Hfix)|].
  split; [apply (fixture_existing _ _ _ Hfix)|].
  split; [exact Hsize|].
  split; [apply (fixture_wf _ _ _ Hfix)|apply (fixture_flights _ _ _ Hfix)].
Qed.

(** The whole program: on a generated network, with the generated
    timetable in any order (the source sorts it), no query raises. *)
Theorem generated_query_never_raises
    (fuel : nat) (draws : list route_draw)
    (routes : routes_t) (flights timetable : list flight) (s e : city) :
  Forall draw_in_range draws ->
  add_routes fuel draws [] ∅ [] = Ok (routes, flights) ->
  Permutation flights timetable ->
  query routes timetable s e = Ok Unreachable \/
  exists c1 rest shown opts,
    query routes timetable s e = Ok (Route (s :: c1 :: rest) shown opts) /\
    length opts = length (pair_options timetable s c1) /\
    opts <> [].
Proof.
  intros Hdraws Hgen Hperm.
  destruct (add_routes_spec fuel draws [] ∅ [] empty_fixture Hdraws)
    as [He|(r & fl & existing & Heq & Hfix & _)]; [congruence|].
  rewrite Heq in Hgen. injection Hgen as -> ->.
  apply query_cases.
  - apply (fixture_closed _ _ _ Hfix).
  - unfold wf_timetable. eapply Permutation_Forall; [exact Hperm|].
    apply (fixture_wf _ _ _ Hfix).
  - intros u v Hed.
    destruct (pair_options_has_row flights u v
                (fixture_flights _ _ _ Hfix u v Hed)) as (r & Hin & Hp).
    apply (pair_options_nonempty timetable u v r); [|exact Hp].
    eapply Permutation_in; eassumption.
Qed.

Lemma chain_draws_in_range : Forall draw_in_range (chain_draws cities).
Proof.
  repeat constructor; try (vm_compute; congruence); discriminate.
Qed.

Lemma add_route_keeps_fixture_witness :
  fixture (set_route (set_route [] "A" "B" (td 0 9 0)) "B" "A" (td 0 9 0))
          ({[ ("B", "A") ]} ∪ ({[ ("A", "B") ]} ∪ ∅))
          [ mk_flight "A" "B" 7 23 59 17000; mk_flight "B" "A" 1 13 59 18000 ]%string /\
  (size (∅ : gset (city * city))
   < size ({[ ("B", "A") ]} ∪ ({[ ("A", "B") ]} ∪ ∅) : gset (city * city)))%nat /\
  (exists new,
     [ mk_flight "A" "B" 7 23 59 17000; mk_flight "B" "A" 1 13 59 18000 ]%string
     = [] ++ new) /\
  (forall u v t, duration [] u v = Ok t ->
     duration (set_route (set_route [] "A" "B" (td 0 9 0)) "B" "A" (td 0 9 0)) u v
     = Ok t).
Proof.
  apply (add_route_keeps_fixture [chain_draw "A" "B"] [] ∅ [] _ _ _ []).
  - exact empty_fixture.
  - repeat constructor; try (vm_compute; congruence); discriminate.
  - reflexivity.
Defined.

Lemma generated_network_witness :
  add_routes 26 (chain_draws cities) [] ∅ [] = Err OutOfFuel \/
  exists routes flights (existing : gset (city * city)),
    add_routes 26 (chain_draws cities) [] ∅ [] = Ok (routes, flights) /\
    closed_graph routes /\
    symmetric_graph routes /\
    (forall u v t, duration routes u v = Ok t -> duration routes v u = Ok t) /\
    (forall u v, edge routes u v <-> (u, v) ∈ existing) /\
    (n_connections <= size existing)%nat /\
    wf_timetable flights /\
    (forall u v, edge routes u v -> pair_options flights u v <> []).
Proof.
  apply (generated_network 26 (chain_draws cities)).
  exact chain_draws_in_range.
Defined.

Lemma generated_query_never_raises_witness :
  query (fst chain_network) (rev (snd chain_network)) "A" "Z" = Ok Unreachable \/
  exists c1 rest shown opts,
    query (fst chain_network) (rev (snd chain_network)) "A" "Z"
      = Ok (Route ("A"%string :: c1 :: rest) shown opts) /\
    length opts = length (pair_options (rev (snd chain_network)) "A" c1) /\
    opts <> [].
Proof.
  apply (generated_query_never_raises 26 (chain_draws cities)
           (fst chain_network) (snd chain_network)).
  - exact chain_draws_in_range.
  - vm_compute. reflexivity.
  - apply Permutation_rev.
Defined.
